(** * Game Session Engine of the ai-companion backend

    A shallow embedding of [backend/models/game.py],
    [backend/services/game_service.py] and [backend/routers/games.py],
    followed by the properties of the game engine.

    Conventions of the embedding.
    - A Python [str] is the list of its Unicode code points, so that
      [word[0]] and [current_word[-1]] are the first and the last
      character and not a byte.
    - A Python [int] is a [Z].
    - The game state is the dictionary that [json.loads] yields; it is kept
      as a finite map from keys to JSON values.  [json.dumps] followed by
      [json.loads] is the identity on such values, so the [state] column of
      a session row holds the dictionary itself.
    - A database is the list of rows of each table, in row order;
      [Query.first()] is the first matching row.  An ORM object is a row
      together with its position, and [commit] writes the row back there.
    - Values that the code draws from the environment ([uuid4],
      [random.sample], [random.randint]) are arguments of the model.
    - The timestamp columns ([created_at], [updated_at], [played_at]) are
      left out of rows and of [to_dict].
    - Python exceptions are results [Raise e]; a function that raises before
      [db.commit()] leaves the database as it was.
    - Where the source applies an operator to a field of the state, the
      model has the operator on the JSON type that [_get_initial_state] and
      the play functions store in that field, and raises [TypeError]
      ([AttributeError] for a method) on the other JSON values. *)

From Stdlib Require Import ZArith Ascii.
From stdpp Require Import gmap strings list fin_maps.

Local Open Scope Z_scope.

(** ** Python values *)

(** A Python string: its code points. *)
Abbreviation str := (list N).

(** An ASCII literal of the source as a Python string. *)
Definition py (s : string) : str :=
  (λ a, N_of_ascii a) <$> String.list_ascii_of_string s.
Arguments py s%_string.

Local Unset Elimination Schemes.
Inductive json : Type :=
| JNull
| JBool (b : bool)
| JInt (z : Z)
| JStr (s : str)
| JList (l : list json)
| JObj (m : gmap str json).
Local Set Elimination Schemes.

(** A Python [dict] with string keys. *)
Abbreviation dict := (gmap (list N) json).

Inductive exn : Type :=
| KeyError
| IndexError
| TypeError
| AttributeError
| IntegrityError.

Inductive res (A : Type) : Type :=
| Ok (a : A)
| Raise (e : exn).
Arguments Ok {A} a.
Arguments Raise {A} e.

Definition bind {A B : Type} (r : res A) (k : A → res B) : res B :=
  match r with
  | Ok a => k a
  | Raise e => Raise e
  end.

Notation "'let!' x ':=' r 'in' k" := (bind r (λ x, k))
  (at level 10, x name, r at level 100, k at level 200).

(** [bool(v)] *)
Definition truthy (v : json) : bool :=
  match v with
  | JNull => false
  | JBool b => b
  | JInt z => negb (z =? 0)
  | JStr s => match s with [] => false | _ => true end
  | JList l => match l with [] => false | _ => true end
  | JObj m => match map_to_list m with [] => false | _ => true end
  end.

(** [a or b] *)
Definition py_or (a b : json) : json := if truthy a then a else b.

(** [d.get(k, default)] *)
Definition dict_get (d : dict) (k : str) (default : json) : json :=
  match d !! k with
  | Some v => v
  | None => default
  end.

(** [d[k]] *)
Definition dict_item (d : dict) (k : str) : res json :=
  match d !! k with
  | Some v => Ok v
  | None => Raise KeyError
  end.

(** An operand of integer arithmetic or comparison.  The states of this
    service hold integers there; any other JSON value raises [TypeError]
    in the model. *)
Definition as_int (v : json) : res Z :=
  match v with
  | JInt z => Ok z
  | _ => Raise TypeError
  end.

(** [len(v)] for the list values of a state. *)
Definition py_len (v : json) : res Z :=
  match v with
  | JList l => Ok (Z.of_nat (length l))
  | _ => Raise TypeError
  end.

(** [v.append]: only a list has the method; the call [v.append(x)] then
    extends the list, which the dictionary that holds it sees. *)
Definition append_of (v : json) : res (json → json) :=
  match v with
  | JList l => Ok (λ x, JList (l ++ [x]))
  | _ => Raise AttributeError
  end.

(** [k in d] *)
Definition has_key (k : str) (d : dict) : bool :=
  match d !! k with
  | Some _ => true
  | None => false
  end.

(** [v[i]] on a list, with Python's negative indices. *)
Definition list_item (v : json) (i : Z) : res json :=
  match v with
  | JList l =>
      let n := Z.of_nat (length l) in
      let j := if i <? 0 then i + n else i in
      if (j <? 0) || (n <=? j) then Raise IndexError
      else match l !! Z.to_nat j with
           | Some x => Ok x
           | None => Raise IndexError
           end
  | _ => Raise TypeError
  end.

(** [v[k]] on a nested dictionary. *)
Definition obj_item (v : json) (k : str) : res json :=
  match v with
  | JObj m => dict_item m k
  | _ => Raise TypeError
  end.

(** [s == v] for a string [s] and a JSON value [v]. *)
Definition str_eq (s : str) (v : json) : bool :=
  match v with
  | JStr t => bool_decide (s = t)
  | _ => false
  end.

(** [n == v] for an integer [n] and a JSON value [v]. *)
Definition int_eq (n : Z) (v : json) : bool :=
  match v with
  | JInt z => n =? z
  | _ => false
  end.

(** [s in v] for a string [s] and the list values of a state. *)
Definition str_in (s : str) (v : json) : res bool :=
  match v with
  | JList l => Ok (existsb (str_eq s) l)
  | _ => Raise TypeError
  end.

(** [s[0]] *)
Definition str_first (s : str) : res N :=
  match s with
  | c :: _ => Ok c
  | [] => Raise IndexError
  end.

(** [v[-1]] for a string value. *)
Definition str_last (v : json) : res N :=
  match v with
  | JStr s => match last s with
              | Some c => Ok c
              | None => Raise IndexError
              end
  | _ => Raise TypeError
  end.

(** A column of type [Integer]: an integer or NULL. *)
Definition as_column (v : json) : res (option Z) :=
  match v with
  | JInt z => Ok (Some z)
  | JNull => Ok None
  | _ => Raise TypeError
  end.

Definition opt_int (o : option Z) : json :=
  match o with Some z => JInt z | None => JNull end.

Definition opt_str (o : option str) : json :=
  match o with Some s => JStr s | None => JNull end.

(** ** models/game.py *)

Module GameSession.
Record t : Type := mk {
  id : str;
  game_id : str;
  companion_id : str;
  state : dict;
  is_active : bool
}.

Definition get_state (self : t) : dict := state self.

Definition set_state (self : t) (state_dict : dict) : t :=
  mk (id self) (game_id self) (companion_id self) state_dict (is_active self).

Definition set_is_active (self : t) (b : bool) : t :=
  mk (id self) (game_id self) (companion_id self) (state self) b.

Definition to_dict (self : t) : dict :=
  <[py "id" := JStr (id self)]>
  (<[py "game_id" := JStr (game_id self)]>
  (<[py "companion_id" := JStr (companion_id self)]>
  (<[py "state" := JObj (get_state self)]>
  (<[py "is_active" := JBool (is_active self)]> ∅)))).
End GameSession.

Module GameRecord.
Record t : Type := mk {
  id : str;
  game_id : str;
  companion_id : str;
  session_id : option str;
  user_score : option Z;
  companion_score : option Z;
  rounds_played : option Z;
  winner : option str
}.

Definition to_dict (self : t) : dict :=
  <[py "id" := JStr (id self)]>
  (<[py "game_id" := JStr (game_id self)]>
  (<[py "companion_id" := JStr (companion_id self)]>
  (<[py "session_id" := opt_str (session_id self)]>
  (<[py "user_score" := opt_int (user_score self)]>
  (<[py "companion_score" := opt_int (companion_score self)]>
  (<[py "rounds_played" := opt_int (rounds_played self)]>
  (<[py "winner" := opt_str (winner self)]> ∅))))))).
End GameRecord.

(** The two tables of the game engine. *)
Record DB : Type := mkDB {
  game_sessions : list GameSession.t;
  game_records : list GameRecord.t
}.

Definition empty_db : DB := mkDB [] [].

(** [session.<field> = ...; db.commit()] on the row at position [i]. *)
Definition commit_session (db : DB) (i : nat) (s : GameSession.t) : DB :=
  mkDB (<[i := s]> (game_sessions db)) (game_records db).

(** [db.add(session); db.commit()]: the primary key must be new. *)
Definition add_session (db : DB) (s : GameSession.t) : res DB :=
  if bool_decide (GameSession.id s ∈ GameSession.id <$> game_sessions db)
  then Raise IntegrityError
  else Ok (mkDB (game_sessions db ++ [s]) (game_records db)).

(** [db.add(record)] with the primary key check of the commit. *)
Definition add_record (db : DB) (r : GameRecord.t) : res DB :=
  if bool_decide (GameRecord.id r ∈ GameRecord.id <$> game_records db)
  then Raise IntegrityError
  else Ok (mkDB (game_sessions db) (game_records db ++ [r])).

(** ** services/game_service.py *)

(** What one call draws from the environment: the [uuid4] of a new row,
    the outcome of [random.sample(TRIVIA_QUESTIONS, 5)] and the outcome of
    [random.randint(1, 100)]. *)
Record entropy : Type := mkEntropy {
  uuid4 : str;
  random_sample : list json;
  random_randint : Z
}.

(** The dictionary that [get_statistics] returns: its keys are fixed, so it
    is a record.  [type_wins] is the key "wins" of an entry of
    [games_by_type]. *)
Module Stats.
Record by_type : Type := mkByType {
  played : Z;
  type_wins : Z
}.

Record t : Type := mk {
  total_games : Z;
  total_user_score : Z;
  total_companion_score : Z;
  wins : Z;
  losses : Z;
  ties : Z;
  games_by_type : gmap str by_type
}.
End Stats.

Module game_service.

Definition question (q a : str) (options : list str) : json :=
  JObj (<[py "question" := JStr q]>
       (<[py "answer" := JStr a]>
       (<[py "options" := JList (JStr <$> options)]> ∅))).

Definition TRIVIA_QUESTIONS : list json :=
  [ (* 地球上最大的海洋是什么？ 太平洋 *)
    question [22320; 29699; 19978; 26368; 22823; 30340; 28023; 27915;
              26159; 20160; 20040; 65311]%N
             [22826; 24179; 27915]%N
             [[22826; 24179; 27915]; [22823; 35199; 27915];
              [21360; 24230; 27915]; [21271; 20912; 27915]]%N;
    (* 光的速度大约是多少？ 30万公里/秒 *)
    question [20809; 30340; 36895; 24230; 22823; 32422; 26159; 22810;
              23569; 65311]%N
             [51; 48; 19975; 20844; 37324; 47; 31186]%N
             [[51; 48; 19975; 20844; 37324; 47; 31186];
              [51; 19975; 20844; 37324; 47; 31186];
              [51; 48; 48; 19975; 20844; 37324; 47; 31186];
              [51; 48; 48; 48; 20844; 37324; 47; 31186]]%N;
    (* 中国最长的河流是什么？ 长江 *)
    question [20013; 22269; 26368; 38271; 30340; 27827; 27969; 26159;
              20160; 20040; 65311]%N
             [38271; 27743]%N
             [[40644; 27827]; [38271; 27743]; [29664; 27743];
              [28142; 27827]]%N;
    (* 一年有多少天？ 365天 *)
    question [19968; 24180; 26377; 22810; 23569; 22825; 65311]%N
             [51; 54; 53; 22825]%N
             [[51; 54; 48; 22825]; [51; 54; 53; 22825];
              [51; 54; 54; 22825]; [51; 54; 52; 22825]]%N;
    (* 水的化学式是什么？ H2O *)
    question [27700; 30340; 21270; 23398; 24335; 26159; 20160; 20040;
              65311]%N
             (py "H2O")
             [py "H2O"; py "CO2"; py "O2"; py "NaCl"] ].

Definition _get_initial_state (e : entropy) (game_id : str) : dict :=
  if bool_decide (game_id = py "word_chain") then
    <[py "current_word" := JNull]>
    (<[py "words_used" := JList []]>
    (<[py "user_score" := JInt 0]>
    (<[py "companion_score" := JInt 0]>
    (<[py "turn" := JStr (py "user")]>
    (<[py "rounds" := JInt 0]> ∅)))))
  else if bool_decide (game_id = py "trivia") then
    let questions := random_sample e in
    <[py "questions" := JList questions]>
    (<[py "current_index" := JInt 0]>
    (<[py "user_score" := JInt 0]>
    (<[py "companion_score" := JInt 0]>
    (<[py "answers" := JList []]> ∅))))
  else if bool_decide (game_id = py "guess_number") then
    let target := random_randint e in
    <[py "target" := JInt target]>
    (<[py "min_range" := JInt 1]>
    (<[py "max_range" := JInt 100]>
    (<[py "guesses" := JList []]>
    (<[py "max_guesses" := JInt 7]>
    (<[py "won" := JBool false]> ∅)))))
  else ∅.

Definition create_session (e : entropy) (db : DB)
    (game_id companion_id : str) : res GameSession.t * DB :=
  let initial_state := _get_initial_state e game_id in
  let session := GameSession.mk (uuid4 e) game_id companion_id ∅ true in
  let session := GameSession.set_state session initial_state in
  match add_session db session with
  | Ok db' => (Ok session, db')
  | Raise x => (Raise x, db)
  end.

Definition get_session (db : DB) (session_id : str)
    : option (nat * GameSession.t) :=
  list_find (λ s, GameSession.id s = session_id) (game_sessions db).

Definition get_active_session (db : DB) (companion_id game_id : str)
    : option (nat * GameSession.t) :=
  list_find (λ s, GameSession.companion_id s = companion_id
                  ∧ GameSession.game_id s = game_id
                  ∧ GameSession.is_active s = true)
            (game_sessions db).


Definition end_session (uuid : str) (db : DB) (session_id : str)
    : res (option dict) * DB :=
  match get_session db session_id with
  | None => (Ok None, db)
  | Some (i, session) =>
      let state := GameSession.get_state session in
      let user_score := dict_get state (py "user_score") (JInt 0) in
      let companion_score := dict_get state (py "companion_score") (JInt 0) in
      let committed :=
        let! us := as_int user_score in
        let! cs := as_int companion_score in
        let winner :=
          if us >? cs then py "user"
          else if cs >? us then py "companion"
          else py "tie" in
        let! rounds :=
          as_column (dict_get state (py "rounds")
                       (dict_get state (py "current_index") (JInt 0))) in
        let record :=
          GameRecord.mk uuid
            (GameSession.game_id session)
            (GameSession.companion_id session)
            (Some (GameSession.id session))
            (Some us) (Some cs) rounds (Some winner) in
        let! db1 := add_record db record in
        Ok (record,
            commit_session db1 i (GameSession.set_is_active session false)) in
      match committed with
      | Ok (record, db') => (Ok (Some (GameRecord.to_dict record)), db')
      | Raise x => (Raise x, db)
      end
  end.

Definition invalid_session : dict :=
  {[py "error" := JStr (py "Invalid session")]}.

(** The text of the two rejections of [play_word_chain]:
    "这个词已经用过了" and "需要以'c'开头". *)
Definition already_used : str :=
  [36825; 20010; 35789; 24050; 32463; 29992; 36807; 20102]%N.

Definition must_start_with (c : N) : str :=
  ([38656; 35201; 20197; 39] ++ [c] ++ [39; 24320; 22836])%N.

(** The body of a play function up to its [db.commit()] either returns
    early ([inl]) or reaches the commit with what the rest needs
    ([inr]). *)
Definition play_word_chain (db : DB) (session_id : str) (word : str)
    : res dict * DB :=
  match get_session db session_id with
  | None => (Ok invalid_session, db)
  | Some (i, session) =>
    if bool_decide (GameSession.game_id session ≠ py "word_chain")
    then (Ok invalid_session, db)
    else
      let state := GameSession.get_state session in
      let body : res (dict + dict) :=
        let! used := str_in word (dict_get state (py "words_used") (JList [])) in
        if used then
          Ok (inl (<[py "error" := JStr already_used]>
                   (<[py "valid" := JBool false]> ∅)))
        else
          let current_word := dict_get state (py "current_word") JNull in
          let! differs :=
            if truthy current_word then
              let! c := str_first word in
              let! d := str_last current_word in
              Ok (negb (c =? d)%N)
            else Ok false in
          if differs then
            let! d := str_last current_word in
            Ok (inl (<[py "error" := JStr (must_start_with d)]>
                     (<[py "valid" := JBool false]> ∅)))
          else
            let! words_used := dict_item state (py "words_used") in
            let! append := append_of words_used in
            let state := <[py "words_used" := append (JStr word)]> state in
            let state := <[py "current_word" := JStr word]> state in
            let! us := as_int (dict_get state (py "user_score") (JInt 0)) in
            let state := <[py "user_score" := JInt (us + 1)]> state in
            let! rounds := as_int (dict_get state (py "rounds") (JInt 0)) in
            let state := <[py "rounds" := JInt (rounds + 1)]> state in
            let state := <[py "turn" := JStr (py "companion")]> state in
            Ok (inr state) in
      match body with
      | Raise x => (Raise x, db)
      | Ok (inl result) => (Ok result, db)
      | Ok (inr state) =>
          let db' := commit_session db i (GameSession.set_state session state) in
          (Ok (<[py "valid" := JBool true]>
               (<[py "word" := JStr word]>
               (<[py "state" := JObj state]> ∅))), db')
      end
  end.

Definition play_trivia (db : DB) (session_id : str) (answer : str)
    : res dict * DB :=
  match get_session db session_id with
  | None => (Ok invalid_session, db)
  | Some (i, session) =>
    if bool_decide (GameSession.game_id session ≠ py "trivia")
    then (Ok invalid_session, db)
    else
      let state := GameSession.get_state session in
      let questions := dict_get state (py "questions") (JList []) in
      let current_index := dict_get state (py "current_index") (JInt 0) in
      let body : res (dict + dict * bool * json * Z * Z) :=
        let! n := py_len questions in
        let! ci := as_int current_index in
        if ci >=? n then
          Ok (inl (<[py "error" := JStr (py "No more questions")]>
                   (<[py "finished" := JBool true]> ∅)))
        else
          let! current_question := list_item questions ci in
          let! correct_answer := obj_item current_question (py "answer") in
          let correct := str_eq answer correct_answer in
          let! state :=
            if correct then
              let! us := as_int (dict_get state (py "user_score") (JInt 0)) in
              Ok (<[py "user_score" := JInt (us + 1)]> state)
            else Ok state in
          let! answers := dict_item state (py "answers") in
          let! append := append_of answers in
          let! q := obj_item current_question (py "question") in
          let entry :=
            JObj (<[py "question" := q]>
                 (<[py "user_answer" := JStr answer]>
                 (<[py "correct_answer" := correct_answer]>
                 (<[py "correct" := JBool correct]> ∅)))) in
          let state := <[py "answers" := append entry]> state in
          let state := <[py "current_index" := JInt (ci + 1)]> state in
          Ok (inr (state, correct, correct_answer, ci + 1, n)) in
      match body with
      | Raise x => (Raise x, db)
      | Ok (inl result) => (Ok result, db)
      | Ok (inr (state, correct, correct_answer, ci', n)) =>
          let db' := commit_session db i (GameSession.set_state session state) in
          let finished := ci' >=? n in
          (Ok (<[py "correct" := JBool correct]>
               (<[py "correct_answer" := correct_answer]>
               (<[py "finished" := JBool finished]>
               (<[py "state" := JObj state]> ∅)))), db')
      end
  end.

Definition play_guess_number (db : DB) (session_id : str) (guess : Z)
    : res dict * DB :=
  match get_session db session_id with
  | None => (Ok invalid_session, db)
  | Some (i, session) =>
    if bool_decide (GameSession.game_id session ≠ py "guess_number")
    then (Ok invalid_session, db)
    else
      let state := GameSession.get_state session in
      let target := dict_get state (py "target") JNull in
      let guesses := dict_get state (py "guesses") (JList []) in
      let max_guesses := dict_get state (py "max_guesses") (JInt 7) in
      let body : res (dict + dict * str * json) :=
        let! over :=
          if truthy (dict_get state (py "won") JNull) then Ok true
          else
            let! n := py_len guesses in
            let! m := as_int max_guesses in
            Ok (n >=? m) in
        if over then
          Ok (inl (<[py "error" := JStr (py "Game already finished")]>
                   (<[py "finished" := JBool true]> ∅)))
        else
          let! append := append_of guesses in
          let guesses := append (JInt guess) in
          let state := <[py "guesses" := guesses]> state in
          let! moved :=
            if int_eq guess target then
              let state := <[py "won" := JBool true]> state in
              let! m := as_int max_guesses in
              let! n := py_len guesses in
              Ok (<[py "user_score" := JInt (m - n + 1)]> state, py "correct")
            else
              let! t := as_int target in
              if guess <? t then
                let! lo := as_int (dict_get state (py "min_range") (JInt 1)) in
                Ok (<[py "min_range" := JInt (Z.max lo (guess + 1))]> state,
                    py "higher")
              else
                let! hi := as_int (dict_get state (py "max_range") (JInt 100)) in
                Ok (<[py "max_range" := JInt (Z.min hi (guess - 1))]> state,
                    py "lower") in
          Ok (inr (moved, guesses)) in
      match body with
      | Raise x => (Raise x, db)
      | Ok (inl result) => (Ok result, db)
      | Ok (inr (state, hint, guesses)) =>
          let db' := commit_session db i (GameSession.set_state session state) in
          let after : res dict :=
            let! won := dict_item state (py "won") in
            let! finished :=
              if truthy won then Ok won
              else
                let! n := py_len guesses in
                let! m := as_int max_guesses in
                Ok (JBool (n >=? m)) in
            Ok (<[py "guess" := JInt guess]>
                (<[py "hint" := JStr hint]>
                (<[py "finished" := finished]>
                (<[py "won" := won]>
                (<[py "target" := if truthy finished then target else JNull]>
                (<[py "state" := JObj state]> ∅)))))) in
          (after, db')
      end
  end.

(** One turn of the loop [for r in records] of [get_statistics]. *)
Definition count_record (stats : Stats.t) (r : GameRecord.t) : Stats.t :=
  let total_user_score :=
    Stats.total_user_score stats + default 0 (GameRecord.user_score r) in
  let total_companion_score :=
    Stats.total_companion_score stats
    + default 0 (GameRecord.companion_score r) in
  let user_won := bool_decide (GameRecord.winner r = Some (py "user")) in
  let companion_won :=
    bool_decide (GameRecord.winner r = Some (py "companion")) in
  let wins := if user_won then Stats.wins stats + 1 else Stats.wins stats in
  let losses :=
    if user_won then Stats.losses stats
    else if companion_won then Stats.losses stats + 1
    else Stats.losses stats in
  let ties :=
    if user_won then Stats.ties stats
    else if companion_won then Stats.ties stats
    else Stats.ties stats + 1 in
  let g := GameRecord.game_id r in
  let by_type := Stats.games_by_type stats in
  let by_type :=
    match by_type !! g with
    | None => <[g := Stats.mkByType 0 0]> by_type
    | Some _ => by_type
    end in
  let by_type :=
    alter (λ e, Stats.mkByType (Stats.played e + 1) (Stats.type_wins e))
          g by_type in
  let by_type :=
    if user_won then
      alter (λ e, Stats.mkByType (Stats.played e) (Stats.type_wins e + 1))
            g by_type
    else by_type in
  Stats.mk (Stats.total_games stats) total_user_score total_companion_score
           wins losses ties by_type.

Definition get_statistics (db : DB) (companion_id : str) : Stats.t * DB :=
  let records :=
    filter (λ r, GameRecord.companion_id r = companion_id)
           (game_records db) in
  match records with
  | [] => (Stats.mk 0 0 0 0 0 0 ∅, db)
  | _ =>
      let stats := Stats.mk (Z.of_nat (length records)) 0 0 0 0 0 ∅ in
      (fold_left count_record records stats, db)
  end.

End game_service.

(** ** routers/games.py *)

(** An HTTP response: the status code and the JSON body. *)
Inductive response : Type :=
| Response (status_code : Z) (body : json).

Definition status_of (r : response) : Z :=
  match r with Response c _ => c end.

Definition body_of (r : response) : json :=
  match r with Response _ b => b end.

(** [raise HTTPException(status_code=c, detail=d)] *)
Definition HTTPException (status_code : Z) (detail : json) : response :=
  Response status_code (JObj {[py "detail" := detail]}).

(** What the framework answers when a handler raises anything else. *)
Definition internal_server_error : response :=
  Response 500 (JStr (py "Internal Server Error")).

Module games.

Definition create_session (e : entropy) (db : DB)
    (game_id companion_id : str) : response * DB :=
  match game_service.get_active_session db companion_id game_id with
  | Some (_, existing) =>
      (Response 200 (JObj (GameSession.to_dict existing)), db)
  | None =>
      match game_service.create_session e db game_id companion_id with
      | (Ok session, db') =>
          (Response 200 (JObj (GameSession.to_dict session)), db')
      | (Raise _, db') => (internal_server_error, db')
      end
  end.

Definition get_session (db : DB) (session_id : str) : response * DB :=
  match game_service.get_session db session_id with
  | None => (HTTPException 404 (JStr (py "Session not found")), db)
  | Some (_, session) =>
      (Response 200 (JObj (GameSession.to_dict session)), db)
  end.

Definition end_session (uuid : str) (db : DB) (session_id : str)
    : response * DB :=
  match game_service.end_session uuid db session_id with
  | (Ok None, db') =>
      (HTTPException 404 (JStr (py "Session not found")), db')
  | (Ok (Some result), db') =>
      if truthy (JObj result) then (Response 200 (JObj result), db')
      else (HTTPException 404 (JStr (py "Session not found")), db')
  | (Raise _, db') => (internal_server_error, db')
  end.

Definition play_word_chain (db : DB) (session_id : str) (word : str)
    : response * DB :=
  match game_service.play_word_chain db session_id word with
  | (Raise _, db') => (internal_server_error, db')
  | (Ok result, db') =>
      if has_key (py "error") result
         && negb (truthy (dict_get result (py "valid") (JBool true)))
      then (Response 200 (JObj result), db')
      else if has_key (py "error") result
      then (HTTPException 400 (dict_get result (py "error") JNull), db')
      else (Response 200 (JObj result), db')
  end.

Definition play_trivia (db : DB) (session_id : str) (answer : str)
    : response * DB :=
  match game_service.play_trivia db session_id answer with
  | (Raise _, db') => (internal_server_error, db')
  | (Ok result, db') =>
      if has_key (py "error") result
         && negb (truthy (dict_get result (py "finished") JNull))
      then (HTTPException 400 (dict_get result (py "error") JNull), db')
      else (Response 200 (JObj result), db')
  end.

Definition play_guess_number (db : DB) (session_id : str) (guess : Z)
    : response * DB :=
  match game_service.play_guess_number db session_id guess with
  | (Raise _, db') => (internal_server_error, db')
  | (Ok result, db') =>
      if has_key (py "error") result
         && negb (truthy (dict_get result (py "finished") JNull))
      then (HTTPException 400 (dict_get result (py "error") JNull), db')
      else (Response 200 (JObj result), db')
  end.

End games.

(** The requests that write to the tables, and a server that handles a
    sequence of them one after the other. *)
Inductive request : Type :=
| PostSession (e : entropy) (game_id companion_id : str)
| PostEnd (uuid : str) (session_id : str)
| PostWordChain (session_id : str) (word : str)
| PostTrivia (session_id : str) (answer : str)
| PostGuessNumber (session_id : str) (guess : Z).

Definition handle (db : DB) (req : request) : response * DB :=
  match req with
  | PostSession e g c => games.create_session e db g c
  | PostEnd u sid => games.end_session u db sid
  | PostWordChain sid w => games.play_word_chain db sid w
  | PostTrivia sid a => games.play_trivia db sid a
  | PostGuessNumber sid n => games.play_guess_number db sid n
  end.

Definition serve (db : DB) (reqs : list request) : DB :=
  fold_left (λ db req, snd (handle db req)) reqs db.

(** ** Statistics, stated over the list of records *)

Definition won_by (who : str) (r : GameRecord.t) : Prop :=
  GameRecord.winner r = Some who.

Definition of_game (g : str) (r : GameRecord.t) : Prop :=
  GameRecord.game_id r = g.

Definition undecided (r : GameRecord.t) : Prop :=
  ¬ won_by (py "user") r ∧ ¬ won_by (py "companion") r.

Definition stray (r : GameRecord.t) : Prop :=
  undecided r ∧ ¬ won_by (py "tie") r.

#[local] Instance won_by_dec who r : Decision (won_by who r) :=
  decide (GameRecord.winner r = Some who).

#[local] Instance of_game_dec g r : Decision (of_game g r) :=
  decide (GameRecord.game_id r = g).

#[local] Instance undecided_dec r : Decision (undecided r) :=
  decide (¬ won_by (py "user") r ∧ ¬ won_by (py "companion") r).

#[local] Instance stray_dec r : Decision (stray r) :=
  decide (undecided r ∧ ¬ won_by (py "tie") r).

Definition user_win_of (g : str) (r : GameRecord.t) : Prop :=
  of_game g r ∧ won_by (py "user") r.

#[local] Instance user_win_of_dec g r : Decision (user_win_of g r) :=
  decide (of_game g r ∧ won_by (py "user") r).

(** How many records satisfy [P]. *)
Definition tally (P : GameRecord.t → Prop) `{!∀ r, Decision (P r)}
    (l : list GameRecord.t) : Z :=
  Z.of_nat (length (filter P l)).

(** The sum of a score column, NULL counting for nothing. *)
Definition total (f : GameRecord.t → option Z) (l : list GameRecord.t) : Z :=
  foldr (λ r acc, default 0 (f r) + acc) 0 l.

(** The statistics as section 4.4 of the specification words them: the
    number of records, the two sums, the three counts by winner, and for
    each game that was played its number of records and of user wins. *)
Definition statistics_of (records : list GameRecord.t) : Stats.t :=
  Stats.mk
    (Z.of_nat (length records))
    (total GameRecord.user_score records)
    (total GameRecord.companion_score records)
    (tally (won_by (py "user")) records)
    (tally (won_by (py "companion")) records)
    (tally (won_by (py "tie")) records + tally stray records)
    (list_to_map
       ((λ g, (g, Stats.mkByType
                    (tally (of_game g) records)
                    (tally (user_win_of g) records)))
        <$> (GameRecord.game_id <$> records))).

Definition records_of (db : DB) (companion_id : str) : list GameRecord.t :=
  filter (λ r, GameRecord.companion_id r = companion_id) (game_records db).


(** ** The chaining rule of word_chain, as the specification words it *)

(** The character the next word has to start with: the last character of
    the current word, when a current word is set and has one. *)
Definition required_start (current_word : option str) : option N :=
  match current_word with
  | Some w => last w
  | None => None
  end.

(** ** The record of an ended session, as the specification words it *)

(** [rounds] if the state has it, else [current_index], else 0. *)
Definition rounds_played_of (state : dict) : json :=
  match state !! py "rounds" with
  | Some rounds => rounds
  | None =>
      match state !! py "current_index" with
      | Some current_index => current_index
      | None => JInt 0
      end
  end.

(** Greater score wins; equal scores tie. *)
Definition winner_of (user_score companion_score : Z) : str :=
  if decide (companion_score < user_score) then py "user"
  else if decide (user_score < companion_score) then py "companion"
  else py "tie".

(** A score of the state, a missing field reading as 0. *)
Definition score_of (state : dict) (field : str) : json :=
  default (JInt 0) (state !! field).

(** ** The invariant of the sessions table *)

(** No two rows are active for the same owner and game. *)
Definition one_active_per_pair (db : DB) : Prop :=
  ∀ (i j : nat) (s1 s2 : GameSession.t),
    game_sessions db !! i = Some s1 →
    game_sessions db !! j = Some s2 →
    GameSession.is_active s1 = true →
    GameSession.is_active s2 = true →
    GameSession.companion_id s1 = GameSession.companion_id s2 →
    GameSession.game_id s1 = GameSession.game_id s2 →
    i = j.

(** A play endpoint is called on a session that does not exist or that
    belongs to another game. *)
Definition no_session_of_game (game : str) (db : DB) (sid : str) : Prop :=
  game_service.get_session db sid = None
  ∨ ∃ i session, game_service.get_session db sid = Some (i, session)
                 ∧ GameSession.game_id session ≠ game.

(** What a play function may write: nothing, or the state of one row. *)
Definition wrote_state_only (db db' : DB) : Prop :=
  db' = db
  ∨ ∃ i s state, game_sessions db !! i = Some s
                 ∧ db' = commit_session db i (GameSession.set_state s state).


(** ** Moves do not look at [is_active] *)

(** The responses of the server to a sequence of requests. *)
Fixpoint answers (db : DB) (reqs : list request) : list response :=
  match reqs with
  | [] => []
  | req :: reqs => (handle db req).1 :: answers (handle db req).2 reqs
  end.

(** The requests that play a move. *)
Definition is_play (req : request) : Prop :=
  match req with
  | PostWordChain _ _ | PostTrivia _ _ | PostGuessNumber _ _ => True
  | PostSession _ _ _ | PostEnd _ _ => False
  end.

(** Two rows that a move cannot tell apart: the same key, game and state. *)
Definition same_game (s1 s2 : GameSession.t) : Prop :=
  GameSession.id s1 = GameSession.id s2
  ∧ GameSession.game_id s1 = GameSession.game_id s2
  ∧ GameSession.state s1 = GameSession.state s2.

Definition same_games (db1 db2 : DB) : Prop :=
  Forall2 same_game (game_sessions db1) (game_sessions db2).

(** ** Worked sessions *)

(** A draw of the environment: the given row id, the questions in the
    order of the pool, and 42 as the number to guess. *)
Definition draw (u : string) : entropy :=
  mkEntropy (py u) game_service.TRIVIA_QUESTIONS 42.

Definition comp : str := py "c-1".

(** *** word_chain *)

(** 猫头鹰, 鹰击长空, 异想天开 *)
Definition owl : str := [29483; 22836; 40560]%N.
Definition wild_idea : str := [24322; 24819; 22825; 24320]%N.

Definition wc_session (active : bool) (state : dict) : GameSession.t :=
  GameSession.mk (py "s-wc") (py "word_chain") comp state active.

Definition wc_state (current_word : option str) (words : list str)
    (score : Z) (turn : string) : dict :=
  <[py "current_word" := opt_str current_word]>
  (<[py "words_used" := JList (JStr <$> words)]>
  (<[py "user_score" := JInt score]>
  (<[py "companion_score" := JInt 0]>
  (<[py "turn" := JStr (py turn)]>
  (<[py "rounds" := JInt score]> ∅))))).

Definition wc_state0 : dict := wc_state None [] 0 "user".

Definition db_wc : DB := mkDB [wc_session true wc_state0] [].

Definition record_wc : GameRecord.t :=
  GameRecord.mk (py "r-1") (py "word_chain") comp (Some (py "s-wc"))
    (Some 0) (Some 0) (Some 0) (Some (py "tie")).

Definition db_wc_ended : DB := mkDB [wc_session false wc_state0] [record_wc].

Definition db_wc_ended_played : DB :=
  mkDB [wc_session false (wc_state (Some owl) [owl] 1 "companion")]
       [record_wc].

Definition db_owl : DB :=
  mkDB [wc_session true (wc_state (Some owl) [owl] 1 "companion")] [].

(** *** guess_number *)

Definition gn_session (state : dict) : GameSession.t :=
  GameSession.mk (py "s-gn") (py "guess_number") comp state true.

Definition gn_state (lo hi : Z) (guesses : list Z) (won : bool) : dict :=
  <[py "target" := JInt 42]>
  (<[py "min_range" := JInt lo]>
  (<[py "max_range" := JInt hi]>
  (<[py "guesses" := JList (JInt <$> guesses)]>
  (<[py "max_guesses" := JInt 7]>
  (<[py "won" := JBool won]> ∅))))).

(** Two guesses made, 10 and 50. *)
Definition db_gn : DB := mkDB [gn_session (gn_state 11 49 [10; 50] false)] [].

(** Won on the third guess. *)
Definition gn_state_won : dict :=
  <[py "user_score" := JInt 5]> (gn_state 11 49 [10; 50; 42] true).

Definition db_gn_won : DB := mkDB [gn_session gn_state_won] [].

(** *** trivia *)

Definition tr_session (state : dict) : GameSession.t :=
  GameSession.mk (py "s-tr") (py "trivia") comp state true.

(** The entry that an answer to question [q] leaves in [answers]. *)
Definition answered (q : json) (given : str) : json :=
  match q with
  | JObj m =>
      JObj (<[py "question" := dict_get m (py "question") JNull]>
           (<[py "user_answer" := JStr given]>
           (<[py "correct_answer" := dict_get m (py "answer") JNull]>
           (<[py "correct" :=
                JBool (str_eq given (dict_get m (py "answer") JNull))]> ∅))))
  | _ => JNull
  end.

Definition tr_state (given : list str) (score : Z) : dict :=
  <[py "questions" := JList game_service.TRIVIA_QUESTIONS]>
  (<[py "current_index" := JInt (Z.of_nat (length given))]>
  (<[py "user_score" := JInt score]>
  (<[py "companion_score" := JInt 0]>
  (<[py "answers" :=
       JList (zip_with answered game_service.TRIVIA_QUESTIONS given)]> ∅)))).

(** 太平洋, 长江, 黄河 *)
Definition pacific : str := [22826; 24179; 27915]%N.
Definition yangtze : str := [38271; 27743]%N.

(** Two questions answered, the first one correctly. *)
Definition db_tr : DB :=
  mkDB [tr_session (tr_state [pacific; py "?"] 1)] [].

(** All five questions answered. *)
Definition db_tr_done : DB :=
  mkDB [tr_session
          (tr_state [pacific; py "?"; yangtze; py "?"; py "H2O"] 3)] [].

(** *** records *)

Definition record_of (rid : string) (game : string) (us cs : Z)
    (winner : option string) : GameRecord.t :=
  GameRecord.mk (py rid) (py game) comp None (Some us) (Some cs) (Some 1)
    (py <$> winner).

Definition db_three : DB :=
  mkDB [] [record_of "r-1" "trivia" 3 0 (Some "user");
           record_of "r-2" "word_chain" 2 0 (Some "user");
           record_of "r-3" "trivia" 0 0 (Some "tie")].

Definition db_null_winner : DB :=
  mkDB [] [record_of "r-1" "trivia" 3 0 (Some "user");
           record_of "r-2" "trivia" 0 0 None].

(** ** The game catalogue of [game_service.py] *)

(** The methods of [class GameService] that read [AVAILABLE_GAMES].  The
    dictionary keeps its insertion order, which [list(....values())]
    shows, so it is a list of key and value. *)
Module GameService.

Definition game (id : string) (name : str) (type : string)
    (description rules : str) : str * dict :=
  (py id,
   <[py "id" := JStr (py id)]>
   (<[py "name" := JStr name]>
   (<[py "type" := JStr (py type)]>
   (<[py "description" := JStr description]>
   (<[py "rules" := JStr rules]> ∅))))).

Definition AVAILABLE_GAMES : list (str * dict) :=
  [ (* 成语接龙; 接龙游戏，考验词汇量;
       用上一个成语的最后一个字作为下一个成语的开头 *)
    game "word_chain" [25104; 35821; 25509; 40857]%N "word"
      [25509; 40857; 28216; 25103; 65292; 32771; 39564; 35789; 27719;
       37327]%N
      [29992; 19978; 19968; 20010; 25104; 35821; 30340; 26368; 21518;
       19968; 20010; 23383; 20316; 20026; 19979; 19968; 20010; 25104;
       35821; 30340; 24320; 22836]%N;
    (* 知识问答; 趣味问答，增长知识; 回答问题，答对得分 *)
    game "trivia" [30693; 35782; 38382; 31572]%N "trivia"
      [36259; 21619; 38382; 31572; 65292; 22686; 38271; 30693; 35782]%N
      [22238; 31572; 38382; 39064; 65292; 31572; 23545; 24471; 20998]%N;
    (* 猜数字; 猜测数字，锻炼逻辑; 猜测1-100之间的数字，根据提示缩小范围 *)
    game "guess_number" [29468; 25968; 23383]%N "logic"
      [29468; 27979; 25968; 23383; 65292; 38203; 28860; 36923; 36753]%N
      [29468; 27979; 49; 45; 49; 48; 48; 20043; 38388; 30340; 25968;
       23383; 65292; 26681; 25454; 25552; 31034; 32553; 23567; 33539;
       22260]%N ].

Definition get_available_games : list dict := snd <$> AVAILABLE_GAMES.

(** [AVAILABLE_GAMES.get(game_id)] *)
Definition get_game_info (game_id : str) : option dict :=
  match list_find (λ kv, kv.1 = game_id) AVAILABLE_GAMES with
  | Some (_, (_, info)) => Some info
  | None => None
  end.

End GameService.

(** ** The read-only routes of [routers/games.py] *)

Module games_routes.

Definition list_games (db : DB) : response * DB :=
  (Response 200 (JList (JObj <$> GameService.get_available_games)), db).

Definition get_game_info (db : DB) (game_id : str) : response * DB :=
  match GameService.get_game_info game_id with
  | None => (HTTPException 404 (JStr (py "Game not found")), db)
  | Some info =>
      if truthy (JObj info) then (Response 200 (JObj info), db)
      else (HTTPException 404 (JStr (py "Game not found")), db)
  end.

Definition get_active_sessions (db : DB) (companion_id : str)
    : response * DB :=
  let sessions :=
    filter (λ s, GameSession.companion_id s = companion_id
                 ∧ GameSession.is_active s = true)
           (game_sessions db) in
  (Response 200 (JList ((λ s, JObj (GameSession.to_dict s)) <$> sessions)),
   db).

End games_routes.

(** ** What the states of the three games keep *)

(** Each word but an empty one hands its last character to the next. *)
Definition chained (ws : list str) : Prop :=
  ∀ (i : nat) (w1 w2 : str),
    ws !! i = Some w1 → ws !! S i = Some w2 → w1 = [] ∨ last w1 = head w2.

Definition word_chain_ok (st : dict) : Prop :=
  ∃ ws : list str,
    st !! py "words_used" = Some (JList (JStr <$> ws))
    ∧ st !! py "current_word" = Some (opt_str (last ws))
    ∧ st !! py "user_score" = Some (JInt (Z.of_nat (length ws)))
    ∧ st !! py "rounds" = Some (JInt (Z.of_nat (length ws)))
    ∧ NoDup ws
    ∧ chained ws.

(** The outcome of a move that [play_word_chain] accepts. *)
Definition word_accepted (db : DB) (i : nat) (session : GameSession.t)
    (ws : list str) (us r : Z) (word : str) : res dict * DB :=
  let state' :=
    <[py "turn" := JStr (py "companion")]>
    (<[py "rounds" := JInt (r + 1)]>
    (<[py "user_score" := JInt (us + 1)]>
    (<[py "current_word" := JStr word]>
    (<[py "words_used" := JList (JStr <$> (ws ++ [word]))]>
       (GameSession.state session))))) in
  (Ok (<[py "valid" := JBool true]>
       (<[py "word" := JStr word]>
       (<[py "state" := JObj state']> ∅))),
   commit_session db i (GameSession.set_state session state')).

Definition word_rejected (reason : str) : dict :=
  <[py "error" := JStr reason]> (<[py "valid" := JBool false]> ∅).

(** A question of the pool: a dictionary with a text answer and a
    question. *)
Definition is_question (q : json) : Prop :=
  ∃ (m : dict) (a : str) (qt : json),
    q = JObj m ∧ m !! py "answer" = Some (JStr a)
    ∧ m !! py "question" = Some qt.

(** The entry that [play_trivia] appends to [answers]. *)
Definition trivia_entry (qt : json) (answer a : str) : json :=
  JObj (<[py "question" := qt]>
       (<[py "user_answer" := JStr answer]>
       (<[py "correct_answer" := JStr a]>
       (<[py "correct" := JBool (bool_decide (answer = a))]> ∅)))).

(** The state that an answer leaves. *)
Definition trivia_answered (st : dict) (ci us : Z) (ans : list json)
    (qt : json) (answer a : str) : dict :=
  <[py "current_index" := JInt (ci + 1)]>
  (<[py "answers" := JList (ans ++ [trivia_entry qt answer a])]>
  (<[py "user_score" :=
       JInt (if bool_decide (answer = a) then us + 1 else us)]> st)).

(** Whether an entry of [answers] records a correct answer. *)
Definition entry_correct (e : json) : bool :=
  match e with
  | JObj m =>
      match m !! py "correct" with
      | Some (JBool b) => b
      | _ => false
      end
  | _ => false
  end.

Definition trivia_ok (st : dict) : Prop :=
  ∃ (qs : list json) (given : list str),
    st !! py "questions" = Some (JList qs)
    ∧ Forall is_question qs
    ∧ (length given ≤ length qs)%nat
    ∧ st !! py "current_index" = Some (JInt (Z.of_nat (length given)))
    ∧ st !! py "answers" = Some (JList (zip_with answered qs given))
    ∧ st !! py "user_score"
      = Some (JInt (Z.of_nat
                      (length (filter (λ e, entry_correct e = true)
                                 (zip_with answered qs given))))).

Definition guess_number_ok (st : dict) : Prop :=
  ∃ (t lo hi : Z) (gs : list Z) (won : bool),
    st !! py "target" = Some (JInt t)
    ∧ st !! py "min_range" = Some (JInt lo)
    ∧ st !! py "max_range" = Some (JInt hi)
    ∧ st !! py "guesses" = Some (JList (JInt <$> gs))
    ∧ st !! py "max_guesses" = Some (JInt 7)
    ∧ st !! py "won" = Some (JBool won)
    ∧ 1 ≤ lo ∧ lo ≤ t ∧ t ≤ hi ∧ hi ≤ 100
    ∧ (length gs ≤ 7)%nat
    ∧ Forall (λ g, g = t ∨ g < lo ∨ hi < g) gs
    ∧ (if won
       then (last gs = Some t
             ∧ st !! py "user_score"
               = Some (JInt (7 - Z.of_nat (length gs) + 1)))
       else ((t ∉ gs) ∧ st !! py "user_score" = None)).

(** The state of a session suits its game. *)
Definition session_ok (s : GameSession.t) : Prop :=
  (GameSession.game_id s = py "word_chain"
     → word_chain_ok (GameSession.state s))
  ∧ (GameSession.game_id s = py "trivia"
     → trivia_ok (GameSession.state s))
  ∧ (GameSession.game_id s = py "guess_number"
     → guess_number_ok (GameSession.state s)).

Definition sessions_ok (db : DB) : Prop :=
  Forall session_ok (game_sessions db).

(** A request whose draws are what [random.randint(1, 100)] and
    [random.sample(TRIVIA_QUESTIONS, 5)] can give. *)
Definition fair (req : request) : Prop :=
  match req with
  | PostSession e _ _ =>
      (1 ≤ random_randint e ∧ random_randint e ≤ 100)
      ∧ Forall (λ q, q ∈ game_service.TRIVIA_QUESTIONS) (random_sample e)
  | _ => True
  end.

(** The state that a guess leaves in an unfinished guess_number game. *)
Definition guessed (st : dict) (t : Z) (gs : list json) (m lo hi : Z)
    (guess : Z) : dict :=
  let st1 := <[py "guesses" := JList (gs ++ [JInt guess])]> st in
  if guess =? t then
    <[py "user_score" := JInt (m - (Z.of_nat (length gs) + 1) + 1)]>
      (<[py "won" := JBool true]> st1)
  else if guess <? t then
    <[py "min_range" := JInt (Z.max lo (guess + 1))]> st1
  else
    <[py "max_range" := JInt (Z.min hi (guess - 1))]> st1.

Definition hint_of (t guess : Z) : str :=
  if guess =? t then py "correct"
  else if guess <? t then py "higher"
  else py "lower".

(** ** What a move may write *)

(** From [db] to [db'] nothing changed but, at most, the state of the
    session [sid]: the records, the number of rows, and the key, game,
    owner and activity of each row are the same, and so is every row with
    another key. *)
Definition only_state_of (sid : str) (db db' : DB) : Prop :=
  game_records db' = game_records db
  ∧ length (game_sessions db') = length (game_sessions db)
  ∧ ∀ (j : nat) (s : GameSession.t),
      game_sessions db !! j = Some s →
      ∃ s', game_sessions db' !! j = Some s'
            ∧ GameSession.id s' = GameSession.id s
            ∧ GameSession.game_id s' = GameSession.game_id s
            ∧ GameSession.companion_id s' = GameSession.companion_id s
            ∧ GameSession.is_active s' = GameSession.is_active s
            ∧ (GameSession.id s ≠ sid → s' = s).

(** ** The record that ending a session writes *)

Definition record_of_session (uuid : str) (s : GameSession.t) (us cs : Z)
    (rounds : option Z) : GameRecord.t :=
  GameRecord.mk uuid (GameSession.game_id s) (GameSession.companion_id s)
    (Some (GameSession.id s)) (Some us) (Some cs) rounds
    (Some (winner_of us cs)).

(** A record with another key. *)
Definition with_id (uuid : str) (r : GameRecord.t) : GameRecord.t :=
  GameRecord.mk uuid (GameRecord.game_id r) (GameRecord.companion_id r)
    (GameRecord.session_id r) (GameRecord.user_score r)
    (GameRecord.companion_score r) (GameRecord.rounds_played r)
    (GameRecord.winner r).

(** A record is backed by a session of the table: the session it names
    exists and is ended, has the game and the owner of the record, and
    the winner of the record is the one its two integer scores give. *)
Definition record_backed (db : DB) (r : GameRecord.t) : Prop :=
  ∃ (j : nat) (s : GameSession.t) (us cs : Z),
    game_sessions db !! j = Some s
    ∧ GameRecord.session_id r = Some (GameSession.id s)
    ∧ GameSession.is_active s = false
    ∧ GameRecord.game_id r = GameSession.game_id s
    ∧ GameRecord.companion_id r = GameSession.companion_id s
    ∧ GameRecord.user_score r = Some us
    ∧ GameRecord.companion_score r = Some cs
    ∧ GameRecord.winner r = Some (winner_of us cs).

Definition records_backed (db : DB) : Prop :=
  Forall (record_backed db) (game_records db).

(** From [db] to [db'] every row keeps its key, game and owner, and an
    ended session stays ended. *)
Definition rows_kept (db db' : DB) : Prop :=
  ∀ (j : nat) (s : GameSession.t),
    game_sessions db !! j = Some s →
    ∃ s', game_sessions db' !! j = Some s'
          ∧ GameSession.id s' = GameSession.id s
          ∧ GameSession.game_id s' = GameSession.game_id s
          ∧ GameSession.companion_id s' = GameSession.companion_id s
          ∧ (GameSession.is_active s = false
             → GameSession.is_active s' = false).

(** The primary keys of the two tables are unique. *)
Definition unique_ids (db : DB) : Prop :=
  NoDup (GameSession.id <$> game_sessions db)
  ∧ NoDup (GameRecord.id <$> game_records db).

(** The session that [create_session] makes when none is active. *)
Definition new_session (e : entropy) (g c : str) : GameSession.t :=
  GameSession.mk (uuid4 e) g c (game_service._get_initial_state e g) true.

(** ** Worked runs of the server *)

Definition reqs_owl : list request :=
  [PostSession (draw "s-wc") (py "word_chain") comp;
   PostWordChain (py "s-wc") owl].

Definition reqs_gn : list request :=
  [PostSession (draw "s-gn") (py "guess_number") comp;
   PostGuessNumber (py "s-gn") 10;
   PostGuessNumber (py "s-gn") 50].

Definition reqs_tr : list request :=
  [PostSession (draw "s-tr") (py "trivia") comp;
   PostTrivia (py "s-tr") pacific;
   PostTrivia (py "s-tr") (py "?")].

Definition reqs_wc_ended : list request :=
  [PostSession (draw "s-wc") (py "word_chain") comp;
   PostEnd (py "r-1") (py "s-wc")].

(** * Properties *)

(** ** Statistics *)

Section tally_facts.
Context (P : GameRecord.t → Prop) `{!∀ r, Decision (P r)}.

Lemma tally_nil : tally P [] = 0.
Proof. reflexivity. Qed.

Lemma tally_cons r l :
  tally P (r :: l) = (if decide (P r) then 1 else 0) + tally P l.
Proof.
  unfold tally. rewrite filter_cons.
  destruct (decide (P r)); simpl; lia.
Qed.

Lemma tally_nonneg l : 0 ≤ tally P l.
Proof. unfold tally. lia. Qed.

Lemma tally_zero l : tally P l = 0 ↔ ∀ r, r ∈ l → ¬ P r.
Proof.
  induction l as [|x l IH].
  - split; [intros _ r Hr; inversion Hr | reflexivity].
  - rewrite tally_cons. pose proof (tally_nonneg l) as Hl. split.
    + intros Hz r Hr. destruct (decide (P x)) as [Hx|Hx]; [lia|].
      apply elem_of_cons in Hr as [->|Hr]; [exact Hx|].
      apply IH; [lia | exact Hr].
    + intros Hall. destruct (decide (P x)) as [Hx|Hx].
      * exfalso. apply (Hall x); [left | exact Hx].
      * rewrite (proj2 IH); [reflexivity|].
        intros r Hr. apply Hall. by right.
Qed.
End tally_facts.

(** Two literals of the source are different strings. *)
Ltac literals :=
  let E := fresh "E" in
  intros E; vm_compute in E; discriminate E.

Lemma tally_undecided l :
  tally undecided l = tally (won_by (py "tie")) l + tally stray l.
Proof.
  induction l as [|r l IH]; [reflexivity|].
  rewrite !tally_cons, IH.
  assert (Htie : won_by (py "tie") r → undecided r).
  { unfold undecided, won_by. intros ->. split; literals. }
  unfold stray.
  destruct (decide (undecided r)), (decide (won_by (py "tie") r));
    case_decide; try lia; exfalso; tauto.
Qed.

(** The scalar fields after the loop, from any accumulator. *)
Lemma count_record_scalars l : ∀ s0,
  let s := fold_left game_service.count_record l s0 in
  Stats.total_games s = Stats.total_games s0
  ∧ Stats.total_user_score s
    = Stats.total_user_score s0 + total GameRecord.user_score l
  ∧ Stats.total_companion_score s
    = Stats.total_companion_score s0 + total GameRecord.companion_score l
  ∧ Stats.wins s = Stats.wins s0 + tally (won_by (py "user")) l
  ∧ Stats.losses s = Stats.losses s0 + tally (won_by (py "companion")) l
  ∧ Stats.ties s = Stats.ties s0 + tally undecided l.
Proof.
  induction l as [|r l IH]; intros s0; simpl.
  - rewrite !tally_nil. repeat split; lia.
  - destruct (IH (game_service.count_record s0 r))
      as (Hg & Hu & Hc & Hw & Hl & Ht).
    rewrite Hg, Hu, Hc, Hw, Hl, Ht, !tally_cons. clear.
    unfold game_service.count_record; simpl.
    assert (Huc : won_by (py "user") r → won_by (py "companion") r → False).
    { unfold won_by. intros ->. literals. }
    destruct (decide (undecided r)) as [Hd|Hd]; unfold undecided in Hd;
      repeat case_bool_decide; repeat case_decide;
      try (repeat split; lia); exfalso; tauto.
Qed.

(** One turn of the loop, seen from the entry of game [g]. *)
Lemma count_record_by_type s0 r g :
  Stats.games_by_type (game_service.count_record s0 r) !! g =
    if decide (of_game g r) then
      let e := default (Stats.mkByType 0 0) (Stats.games_by_type s0 !! g) in
      Some (Stats.mkByType
              (Stats.played e + 1)
              (Stats.type_wins e
               + if decide (won_by (py "user") r) then 1 else 0))
    else Stats.games_by_type s0 !! g.
Proof.
  unfold game_service.count_record, of_game, won_by; simpl.
  set (m := Stats.games_by_type s0).
  destruct (decide (GameRecord.game_id r = g)) as [<-|Hne].
  - destruct (m !! GameRecord.game_id r) as [e|] eqn:Hm; simpl;
      case_bool_decide; case_decide; try contradiction;
      rewrite ?lookup_alter_eq, ?lookup_insert_eq, ?Hm; simpl;
      f_equal; f_equal; lia.
  - destruct (m !! GameRecord.game_id r) as [e|] eqn:Hm; simpl;
      case_bool_decide;
      rewrite ?lookup_alter_ne, ?lookup_insert_ne by done; reflexivity.
Qed.

(** The entry of game [g] after the loop, from any accumulator. *)
Lemma count_records_by_type l : ∀ s0 g,
  Stats.games_by_type (fold_left game_service.count_record l s0) !! g =
    match Stats.games_by_type s0 !! g with
    | Some e =>
        Some (Stats.mkByType (Stats.played e + tally (of_game g) l)
                             (Stats.type_wins e + tally (user_win_of g) l))
    | None =>
        if decide (tally (of_game g) l = 0) then None
        else Some (Stats.mkByType (tally (of_game g) l)
                                  (tally (user_win_of g) l))
    end.
Proof.
  induction l as [|r l IH]; intros s0 g; simpl.
  - rewrite !tally_nil. destruct (Stats.games_by_type s0 !! g) as [[p w]|];
      simpl; [f_equal; f_equal; lia | reflexivity].
  - rewrite IH, count_record_by_type, !tally_cons.
    pose proof (tally_nonneg (of_game g) l) as Hn.
    destruct (decide (of_game g r)) as [Hg|Hg];
      destruct (Stats.games_by_type s0 !! g) as [[p w]|]; simpl;
      repeat case_decide; unfold user_win_of in *;
      try tauto; try lia; f_equal; f_equal; lia.
Qed.

(** The entry of game [g] in the statistics of the specification. *)
Lemma statistics_of_by_type l g :
  Stats.games_by_type (statistics_of l) !! g =
    if decide (tally (of_game g) l = 0) then None
    else Some (Stats.mkByType (tally (of_game g) l)
                              (tally (user_win_of g) l)).
Proof.
  unfold statistics_of; simpl.
  set (f := λ g : str, (g, Stats.mkByType _ _)).
  destruct (decide (tally (of_game g) l = 0)) as [Hz|Hz].
  - apply not_elem_of_list_to_map_1.
    rewrite <- list_fmap_compose. intros Hin.
    apply list_elem_of_fmap in Hin as (g' & Hg' & Hin). simpl in Hg'.
    apply list_elem_of_fmap in Hin as (r & Hr & Hin). subst g' g.
    by apply (proj1 (tally_zero _ _) Hz r Hin).
  - assert (Hin : ∃ r, r ∈ l ∧ of_game g r).
    { destruct (decide (Exists (of_game g) l)) as [Hex|Hex].
      - apply Exists_exists in Hex. exact Hex.
      - exfalso. apply Hz. apply tally_zero. intros r Hr Hg.
        apply Hex, Exists_exists. eauto. }
    destruct Hin as (r & Hr & Hg).
    apply elem_of_list_to_map_1'.
    + intros y Hy. apply list_elem_of_fmap in Hy as (g' & Hy & _).
      subst f. simpl in Hy. by injection Hy as <- <-.
    + apply list_elem_of_fmap. exists g. split; [reflexivity|].
      apply list_elem_of_fmap. exists r. split; [symmetry; exact Hg | exact Hr].
Qed.

(** The loop of [get_statistics] computes the statistics of the
    specification; it is the common ground of the two theorems below. *)
Lemma count_records_statistics l :
  fold_left game_service.count_record l
    (Stats.mk (Z.of_nat (length l)) 0 0 0 0 0 ∅) = statistics_of l.
Proof.
  pose proof (count_record_scalars l
                (Stats.mk (Z.of_nat (length l)) 0 0 0 0 0 ∅)) as Hs.
  simpl in Hs. destruct Hs as (Hg & Hu & Hc & Hw & Hl & Ht).
  assert (Hm : Stats.games_by_type
                 (fold_left game_service.count_record l
                    (Stats.mk (Z.of_nat (length l)) 0 0 0 0 0 ∅))
               = Stats.games_by_type (statistics_of l)).
  { apply map_eq. intros g.
    rewrite count_records_by_type, statistics_of_by_type. simpl.
    by rewrite lookup_empty. }
  destruct (fold_left _ _ _) as [g u c w lo t m]. simpl in *.
  subst. unfold statistics_of. f_equal; rewrite ?tally_undecided; lia.
Qed.

Lemma get_statistics_eq (db : DB) (companion_id : str) :
  game_service.get_statistics db companion_id
    = (statistics_of (records_of db companion_id), db).
Proof.
  unfold game_service.get_statistics. fold (records_of db companion_id).
  destruct (records_of db companion_id) as [|r l] eqn:Hrec; [reflexivity|].
  by rewrite count_records_statistics.
Qed.

(** C8. [get_statistics] over the records of one owner returns the
    statistics of the specification: [total_games] is the number of
    records, the two totals are the sums of the scores, wins, losses and
    ties are counted from the winner of each record, and [games_by_type]
    maps each game that was played to its number of records and of user
    wins.  With no record the result is the all-zero structure with an
    empty map, and the database is returned as it was given. *)
Theorem get_statistics_aggregates (db : DB) (companion_id : str) :
  game_service.get_statistics db companion_id
    = (statistics_of (records_of db companion_id), db)
  ∧ statistics_of [] = Stats.mk 0 0 0 0 0 0 ∅.
Proof.
  split; [apply get_statistics_eq | reflexivity].
Qed.

(** C10. For every list of records given to [get_statistics] the three
    buckets partition the records: wins + losses + ties = total_games, the
    wins are the records won by "user", the losses those won by
    "companion", and the ties all the others, the records without a winner
    (NULL) among them. *)
Theorem statistics_buckets_partition (db : DB) (companion_id : str) :
  let records := records_of db companion_id in
  let stats := (game_service.get_statistics db companion_id).1 in
  Stats.wins stats + Stats.losses stats + Stats.ties stats
    = Stats.total_games stats
  ∧ Stats.total_games stats = Z.of_nat (length records)
  ∧ Stats.wins stats = tally (won_by (py "user")) records
  ∧ Stats.losses stats = tally (won_by (py "companion")) records
  ∧ Stats.ties stats = tally undecided records
  ∧ tally (λ r, GameRecord.winner r = None) records ≤ Stats.ties stats.
Proof.
  intros records stats.
  assert (Hstats : stats = statistics_of records).
  { subst stats records. by rewrite get_statistics_eq. }
  rewrite Hstats. unfold statistics_of; simpl.
  rewrite <- tally_undecided. clear.
  induction records as [|r l IH].
  - rewrite !tally_nil. simpl. repeat split; lia.
  - rewrite !tally_cons, length_cons.
    destruct IH as (IH1 & _ & _ & _ & _ & IH2).
    assert (Huc : won_by (py "user") r → won_by (py "companion") r → False).
    { unfold won_by. intros ->. literals. }
    assert (Hnone : GameRecord.winner r = None → undecided r).
    { unfold undecided, won_by. intros ->. split; intros [=]. }
    unfold undecided in *.
    repeat case_decide; try (exfalso; tauto); repeat split; lia.
Qed.

(** ** Moves *)

(** Reading a field that the state holds. *)
Lemma dict_get_Some (d : dict) k v default :
  d !! k = Some v → dict_get d k default = v.
Proof. unfold dict_get. by intros ->. Qed.

Lemma dict_item_Some (d : dict) k v : d !! k = Some v → dict_item d k = Ok v.
Proof. unfold dict_item. by intros ->. Qed.

(** The guard on the game of the session lets the right game through. *)
Lemma game_guard_pass (g : str) (session : GameSession.t) :
  GameSession.game_id session = g →
  bool_decide (GameSession.game_id session ≠ g) = false.
Proof. intros ->. by apply bool_decide_eq_false_2; intros []. Qed.

Lemma game_guard_stop (g : str) (session : GameSession.t) :
  GameSession.game_id session ≠ g →
  bool_decide (GameSession.game_id session ≠ g) = true.
Proof. by apply bool_decide_eq_true_2. Qed.

(** C9. A finished game takes no further move and keeps its state: when
    a trivia session has no question left, [play_trivia] answers
    "No more questions" with [finished] set and writes nothing; when a
    guess_number session is won or out of guesses, [play_guess_number]
    answers "Game already finished" with [finished] set and writes
    nothing. *)
Theorem finished_game_takes_no_move :
  (∀ (db : DB) (sid : str) (i : nat) (session : GameSession.t)
     (qs : list json) (ci : Z) (answer : str),
     game_service.get_session db sid = Some (i, session) →
     GameSession.game_id session = py "trivia" →
     GameSession.state session !! py "questions" = Some (JList qs) →
     GameSession.state session !! py "current_index" = Some (JInt ci) →
     Z.of_nat (length qs) ≤ ci →
     game_service.play_trivia db sid answer
       = (Ok (<[py "error" := JStr (py "No more questions")]>
              (<[py "finished" := JBool true]> ∅)), db))
  ∧
  (∀ (db : DB) (sid : str) (i : nat) (session : GameSession.t)
     (gs : list json) (m : Z) (won : bool) (guess : Z),
     game_service.get_session db sid = Some (i, session) →
     GameSession.game_id session = py "guess_number" →
     GameSession.state session !! py "won" = Some (JBool won) →
     GameSession.state session !! py "guesses" = Some (JList gs) →
     GameSession.state session !! py "max_guesses" = Some (JInt m) →
     won = true ∨ m ≤ Z.of_nat (length gs) →
     game_service.play_guess_number db sid guess
       = (Ok (<[py "error" := JStr (py "Game already finished")]>
              (<[py "finished" := JBool true]> ∅)), db)).
Proof.
  split.
  - intros db sid i session qs ci answer Hget Hgame Hqs Hci Hle.
    unfold game_service.play_trivia.
    rewrite Hget, (game_guard_pass _ _ Hgame).
    unfold GameSession.get_state.
    rewrite (dict_get_Some _ _ _ _ Hqs), (dict_get_Some _ _ _ _ Hci).
    simpl. destruct (ci >=? Z.of_nat (length qs)) eqn:Hcmp; [reflexivity|lia].
  - intros db sid i session gs m won guess Hget Hgame Hwon Hgs Hm Hover.
    unfold game_service.play_guess_number.
    rewrite Hget, (game_guard_pass _ _ Hgame).
    unfold GameSession.get_state.
    rewrite (dict_get_Some _ _ _ _ Hwon), (dict_get_Some _ _ _ _ Hgs),
      (dict_get_Some _ _ _ _ Hm).
    simpl. destruct won; [reflexivity|]. simpl.
    destruct Hover as [[=]|Hle].
    destruct (Z.of_nat (length gs) >=? m) eqn:Hcmp; [reflexivity|lia].
Qed.

(** Python's subscript on a list: a position from the front, or a negative
    one from the back. *)
Lemma list_item_front (l : list json) (i : Z) (x : json) :
  0 ≤ i → l !! Z.to_nat i = Some x → list_item (JList l) i = Ok x.
Proof.
  intros Hi Hx. pose proof (lookup_lt_Some _ _ _ Hx) as Hlt.
  unfold list_item.
  destruct (i <? 0) eqn:Hneg; [lia|].
  destruct (i <? 0) eqn:Hneg'; [lia|].
  destruct (Z.of_nat (length l) <=? i) eqn:Hge; [lia|].
  simpl. by rewrite Hx.
Qed.

Lemma list_item_back (l : list json) (i : Z) (x : json) :
  i < 0 → 0 ≤ i + Z.of_nat (length l) →
  l !! Z.to_nat (i + Z.of_nat (length l)) = Some x →
  list_item (JList l) i = Ok x.
Proof.
  intros Hi Hlo Hx. unfold list_item.
  destruct (i <? 0) eqn:Hneg; [|lia].
  destruct (i + Z.of_nat (length l) <? 0) eqn:Hlt; [lia|].
  destruct (Z.of_nat (length l) <=? i + Z.of_nat (length l)) eqn:Hge; [lia|].
  simpl. by rewrite Hx.
Qed.


(** Looking a field up under the assignments that a move has made to other
    fields. *)
Ltac other_field H :=
  repeat (rewrite lookup_insert_ne by literals); exact H.

(** C3. In an unfinished guess_number session [play_guess_number] appends
    the guess and then: on guess = target sets [won] and
    [user_score] = max_guesses - length(guesses) + 1, the current guess
    counted, with hint "correct"; on guess < target raises [min_range] to
    max(min_range, guess + 1) with hint "higher"; on guess > target lowers
    [max_range] to min(max_range, guess - 1) with hint "lower".  The
    outcome carries the target exactly when the game is finished by this
    guess and null otherwise. *)
Theorem guess_number_move (db : DB) (sid : str) (i : nat)
    (session : GameSession.t) (t : Z) (gs : list json) (m lo hi : Z)
    (guess : Z) :
  game_service.get_session db sid = Some (i, session) →
  GameSession.game_id session = py "guess_number" →
  GameSession.state session !! py "target" = Some (JInt t) →
  GameSession.state session !! py "guesses" = Some (JList gs) →
  GameSession.state session !! py "max_guesses" = Some (JInt m) →
  GameSession.state session !! py "won" = Some (JBool false) →
  GameSession.state session !! py "min_range" = Some (JInt lo) →
  GameSession.state session !! py "max_range" = Some (JInt hi) →
  Z.of_nat (length gs) < m →
  let n := Z.of_nat (length gs) + 1 in
  let guessed :=
    <[py "guesses" := JList (gs ++ [JInt guess])]> (GameSession.state session) in
  let state' :=
    if guess =? t then
      <[py "user_score" := JInt (m - n + 1)]> (<[py "won" := JBool true]> guessed)
    else if guess <? t then
      <[py "min_range" := JInt (Z.max lo (guess + 1))]> guessed
    else
      <[py "max_range" := JInt (Z.min hi (guess - 1))]> guessed in
  let hint :=
    if guess =? t then py "correct"
    else if guess <? t then py "higher"
    else py "lower" in
  let won := guess =? t in
  let finished := won || (m <=? n) in
  game_service.play_guess_number db sid guess
    = (Ok (<[py "guess" := JInt guess]>
           (<[py "hint" := JStr hint]>
           (<[py "finished" := JBool finished]>
           (<[py "won" := JBool won]>
           (<[py "target" := if finished then JInt t else JNull]>
           (<[py "state" := JObj state']> ∅)))))),
       commit_session db i (GameSession.set_state session state')).
Proof.
  intros Hget Hgame Ht Hgs Hm Hwon Hlo Hhi Hlt n guessed state' hint won
    finished.
  unfold game_service.play_guess_number.
  rewrite Hget, (game_guard_pass _ _ Hgame).
  unfold GameSession.get_state.
  rewrite (dict_get_Some _ _ _ _ Ht), (dict_get_Some _ _ _ _ Hgs),
    (dict_get_Some _ _ _ _ Hm), (dict_get_Some _ _ _ _ Hwon).
  cbn [truthy py_len as_int bind].
  destruct (Z.of_nat (length gs) >=? m) eqn:Hcmp; [lia|].
  cbn [append_of bind int_eq py_len as_int]. fold guessed.
  assert (Hlen : Z.of_nat (length (gs ++ [JInt guess])) = n).
  { rewrite length_app. simpl. lia. }
  rewrite ?Hlen.
  subst state' hint finished won.
  destruct (guess =? t) eqn:Heq.
  - cbn [bind]. rewrite (dict_item_Some _ (py "won") (JBool true)).
    2:{ rewrite lookup_insert_ne by literals. apply lookup_insert_eq. }
    reflexivity.
  - cbn [bind]. destruct (guess <? t) eqn:Hless.
    + rewrite (dict_get_Some _ (py "min_range") (JInt lo))
        by (subst guessed; other_field Hlo).
      cbn [as_int bind].
      rewrite (dict_item_Some _ (py "won") (JBool false))
        by (subst guessed; other_field Hwon).
      cbn [bind truthy py_len as_int]. by rewrite Hlen, Z.geb_leb.
    + rewrite (dict_get_Some _ (py "max_range") (JInt hi))
        by (subst guessed; other_field Hhi).
      cbn [as_int bind].
      rewrite (dict_item_Some _ (py "won") (JBool false))
        by (subst guessed; other_field Hwon).
      cbn [bind truthy py_len as_int]. by rewrite Hlen, Z.geb_leb.
Qed.

Lemma str_in_words (word : str) (ws : list str) :
  str_in word (JList (JStr <$> ws)) = Ok (bool_decide (word ∈ ws)).
Proof.
  unfold str_in. f_equal.
  induction ws as [|w ws IH].
  - symmetry. apply bool_decide_eq_false_2. by intros ?%not_elem_of_nil.
  - cbn [fmap list_fmap existsb]. rewrite IH. unfold str_eq.
    destruct (decide (word = w)) as [->|Hne].
    + rewrite bool_decide_eq_true_2 by done. simpl.
      symmetry. apply bool_decide_eq_true_2. by left.
    + rewrite (bool_decide_eq_false_2 (word = w)) by done. simpl.
      apply bool_decide_ext. rewrite elem_of_cons. tauto.
Qed.



(** ** The life of a session *)

Lemma get_session_lookup db sid i s :
  game_service.get_session db sid = Some (i, s) →
  game_sessions db !! i = Some s ∧ GameSession.id s = sid.
Proof.
  unfold game_service.get_session. intros H%list_find_Some. tauto.
Qed.

(** Writing a row back under the same key does not move it. *)
Lemma get_session_commit db sid i s s' :
  game_service.get_session db sid = Some (i, s) →
  GameSession.id s' = sid →
  game_service.get_session (commit_session db i s') sid = Some (i, s').
Proof.
  unfold game_service.get_session, commit_session. simpl.
  intros (Hi & Hid & Hleast)%list_find_Some Hid'.
  apply list_find_insert_Some. right; left.
  split_and!; eauto using lookup_lt_Some.
Qed.

Lemma dict_get_score (state : dict) (field : str) :
  dict_get state field (JInt 0) = score_of state field.
Proof. unfold dict_get, score_of. by destruct (state !! field). Qed.

Lemma dict_get_rounds (state : dict) :
  dict_get state (py "rounds") (dict_get state (py "current_index") (JInt 0))
    = rounds_played_of state.
Proof. reflexivity. Qed.



(** What a successful [end_session] has done to the tables. *)
Lemma end_session_inv uuid db sid result db' :
  game_service.end_session uuid db sid = (Ok (Some result), db') →
  ∃ i session record,
    game_service.get_session db sid = Some (i, session)
    ∧ result = GameRecord.to_dict record
    ∧ db' = mkDB (<[i := GameSession.set_is_active session false]>
                    (game_sessions db))
                 (game_records db ++ [record]).
Proof.
  unfold game_service.end_session.
  destruct (game_service.get_session db sid) as [[i session]|] eqn:Hget;
    [|intros [=]].
  destruct (as_int _) as [us|]; cbn [bind]; [|intros [=]].
  destruct (as_int _) as [cs|]; cbn [bind]; [|intros [=]].
  destruct (as_column _) as [rounds|]; cbn [bind]; [|intros [=]].
  unfold add_record. case_bool_decide; cbn [bind]; [intros [=]|].
  intros [= <- <-]. eauto 10.
Qed.

(** Two tables whose rows a move cannot tell apart resolve a session id
    alike. *)
Lemma same_games_get db1 db2 sid :
  same_games db1 db2 →
  (game_service.get_session db1 sid = None
   ∧ game_service.get_session db2 sid = None)
  ∨ ∃ i s1 s2,
      game_service.get_session db1 sid = Some (i, s1)
      ∧ game_service.get_session db2 sid = Some (i, s2)
      ∧ same_game s1 s2.
Proof.
  unfold same_games, game_service.get_session.
  induction 1 as [|s1 s2 l1 l2 Hs Hl IH]; [left; by split|]. simpl.
  destruct Hs as (Hid & Hgame & Hstate).
  destruct (decide (GameSession.id s1 = sid)) as [E|E].
  - rewrite decide_True by congruence. right.
    exists 0%nat, s1, s2.
    split; [reflexivity|]. split; [reflexivity | by repeat split].
  - rewrite decide_False by congruence.
    destruct IH as [[E1 E2]|(i & t1 & t2 & E1 & E2 & Ht)];
      rewrite E1, E2; [left; by split|].
    right. exists (S i), t1, t2.
    split; [reflexivity|]. split; [reflexivity | exact Ht].
Qed.

Lemma same_games_refl db : same_games db db.
Proof. apply Forall2_same_length_lookup. split; [done|]. by intros i s ? -> [= <-]. Qed.

Lemma same_games_commit db1 db2 i s1 s2 :
  same_games db1 db2 → same_game s1 s2 →
  same_games (commit_session db1 i s1) (commit_session db2 i s2).
Proof. intros H12 Hs. by apply Forall2_insert. Qed.

(** A move on such tables has the same outcome and leaves such tables. *)
Section blind_moves.
Context (db1 db2 : DB) (sid : str).
Hypothesis Hsame : same_games db1 db2.

Ltac blind_move play :=
  unfold play, GameSession.get_state;
  destruct (same_games_get db1 db2 sid Hsame)
    as [[-> ->]|(i & s1 & s2 & -> & -> & Hid & Hgame & Hstate)];
    [by split|];
  rewrite Hgame, Hstate;
  case_bool_decide; [by split|].

Lemma play_word_chain_blind word :
  (game_service.play_word_chain db1 sid word).1
    = (game_service.play_word_chain db2 sid word).1
  ∧ same_games (game_service.play_word_chain db1 sid word).2
               (game_service.play_word_chain db2 sid word).2.
Proof.
  blind_move game_service.play_word_chain.
  match goal with
  | |- (match ?b with _ => _ end).1 = _ ∧ _ =>
      destruct b as [[?|state]|?]; [by split| |by split]
  end.
  split; [reflexivity|]. by apply same_games_commit.
Qed.

Lemma play_trivia_blind answer :
  (game_service.play_trivia db1 sid answer).1
    = (game_service.play_trivia db2 sid answer).1
  ∧ same_games (game_service.play_trivia db1 sid answer).2
               (game_service.play_trivia db2 sid answer).2.
Proof.
  blind_move game_service.play_trivia.
  match goal with
  | |- (match ?b with _ => _ end).1 = _ ∧ _ =>
      destruct b as [[?|[[[[state ?] ?] ?] ?]]|?]; [by split| |by split]
  end.
  split; [reflexivity|]. by apply same_games_commit.
Qed.

Lemma play_guess_number_blind guess :
  (game_service.play_guess_number db1 sid guess).1
    = (game_service.play_guess_number db2 sid guess).1
  ∧ same_games (game_service.play_guess_number db1 sid guess).2
               (game_service.play_guess_number db2 sid guess).2.
Proof.
  blind_move game_service.play_guess_number.
  match goal with
  | |- (match ?b with _ => _ end).1 = _ ∧ _ =>
      destruct b as [[?|[[state ?] ?]]|?]; [by split| |by split]
  end.
  split; [reflexivity|]. by apply same_games_commit.
Qed.
End blind_moves.

Lemma handle_play_blind db1 db2 req :
  same_games db1 db2 → is_play req →
  (handle db1 req).1 = (handle db2 req).1
  ∧ same_games (handle db1 req).2 (handle db2 req).2.
Proof.
  intros Hsame Hplay.
  destruct req as [e g c|u sid|sid w|sid a|sid n]; try done; simpl.
  - destruct (play_word_chain_blind db1 db2 sid Hsame w) as [Hr Hdb].
    unfold games.play_word_chain.
    destruct (game_service.play_word_chain db1 sid w) as [r1 d1],
             (game_service.play_word_chain db2 sid w) as [r2 d2].
    simpl in *. subst r2. by destruct r1; repeat case_match.
  - destruct (play_trivia_blind db1 db2 sid Hsame a) as [Hr Hdb].
    unfold games.play_trivia.
    destruct (game_service.play_trivia db1 sid a) as [r1 d1],
             (game_service.play_trivia db2 sid a) as [r2 d2].
    simpl in *. subst r2. by destruct r1; repeat case_match.
  - destruct (play_guess_number_blind db1 db2 sid Hsame n) as [Hr Hdb].
    unfold games.play_guess_number.
    destruct (game_service.play_guess_number db1 sid n) as [r1 d1],
             (game_service.play_guess_number db2 sid n) as [r2 d2].
    simpl in *. subst r2. by destruct r1; repeat case_match.
Qed.

Lemma answers_blind plays : ∀ db1 db2,
  same_games db1 db2 → Forall is_play plays →
  answers db1 plays = answers db2 plays.
Proof.
  induction plays as [|req plays IH]; intros db1 db2 Hsame Hplays;
    [reflexivity|].
  apply Forall_cons in Hplays as [Hreq Hplays]. simpl.
  destruct (handle_play_blind db1 db2 req Hsame Hreq) as [-> Hnext].
  f_equal. by apply IH.
Qed.

(** C1, as the code has it.  After a successful [end_session] the
    session is fetched with [is_active] false, its game and state as they
    were.  The play functions do not read [is_active]: the next move on
    the ended session has the outcome it would have had before the end,
    and every sequence of moves is answered by the play endpoints as it
    would have been had the session not been ended.  A move is refused as
    finished only when the state of the game is finished. *)
Theorem ended_session_inactive_and_plays_as_before (uuid : str) (db : DB)
    (sid : str) (result : dict) (db' : DB) :
  game_service.end_session uuid db sid = (Ok (Some result), db') →
  (∃ i session,
     game_service.get_session db sid = Some (i, session)
     ∧ games.get_session db' sid
       = (Response 200
            (JObj (GameSession.to_dict
                     (GameSession.set_is_active session false))), db')
     ∧ GameSession.to_dict (GameSession.set_is_active session false)
         !! py "is_active" = Some (JBool false))
  ∧ (∀ word,
       (game_service.play_word_chain db' sid word).1
         = (game_service.play_word_chain db sid word).1)
  ∧ (∀ answer,
       (game_service.play_trivia db' sid answer).1
         = (game_service.play_trivia db sid answer).1)
  ∧ (∀ guess,
       (game_service.play_guess_number db' sid guess).1
         = (game_service.play_guess_number db sid guess).1)
  ∧ (∀ plays, Forall is_play plays → answers db' plays = answers db plays).
Proof.
  intros (i & session & record & Hget & -> & ->)%end_session_inv.
  set (ended := GameSession.set_is_active session false).
  set (db' := mkDB _ _).
  destruct (get_session_lookup _ _ _ _ Hget) as [Hi Hid].
  assert (Hget' : game_service.get_session db' sid = Some (i, ended))
    by exact (get_session_commit db sid i session ended Hget Hid).
  assert (Hsame : same_games db' db).
  { unfold same_games, db'. cbn [game_sessions].
    rewrite <- (list_insert_id _ _ _ Hi) at 2.
    apply Forall2_insert; [apply same_games_refl | done]. }
  split; [|split_and!].
  - exists i, session. split; [exact Hget|]. split.
    + unfold games.get_session. by rewrite Hget'.
    + unfold GameSession.to_dict.
      repeat (rewrite lookup_insert_ne by literals).
      apply lookup_insert_eq.
  - intros word. by apply play_word_chain_blind.
  - intros answer. by apply play_trivia_blind.
  - intros guess. by apply play_guess_number_blind.
  - intros plays. by apply answers_blind.
Qed.

(** C2, as the code has it.  Each play endpoint answers a session id
    that does not resolve and a session of another game with one and the
    same response, HTTP 400 with detail "Invalid session", and writes
    nothing: the caller cannot tell the two failures apart. *)
Theorem play_on_invalid_session_is_400 (db : DB) (sid : str) :
  (∀ word, no_session_of_game (py "word_chain") db sid →
     games.play_word_chain db sid word
       = (HTTPException 400 (JStr (py "Invalid session")), db))
  ∧ (∀ answer, no_session_of_game (py "trivia") db sid →
     games.play_trivia db sid answer
       = (HTTPException 400 (JStr (py "Invalid session")), db))
  ∧ (∀ guess, no_session_of_game (py "guess_number") db sid →
     games.play_guess_number db sid guess
       = (HTTPException 400 (JStr (py "Invalid session")), db)).
Proof.
  split_and!.
  - intros word [Hnone|(i & s & Hget & Hgame)];
      unfold games.play_word_chain, game_service.play_word_chain.
    + by rewrite Hnone.
    + by rewrite Hget, (game_guard_stop _ _ Hgame).
  - intros answer [Hnone|(i & s & Hget & Hgame)];
      unfold games.play_trivia, game_service.play_trivia.
    + by rewrite Hnone.
    + by rewrite Hget, (game_guard_stop _ _ Hgame).
  - intros guess [Hnone|(i & s & Hget & Hgame)];
      unfold games.play_guess_number, game_service.play_guess_number.
    + by rewrite Hnone.
    + by rewrite Hget, (game_guard_stop _ _ Hgame).
Qed.

(** *** One active session per owner and game *)

Lemma one_active_empty : one_active_per_pair empty_db.
Proof.
  intros i j s1 s2 H. unfold empty_db in H. simpl in H.
  by rewrite lookup_nil in H.
Qed.

(** Writing a row back with its owner and game, and not more active than
    it was, keeps the invariant. *)
Lemma one_active_commit db i s s' :
  one_active_per_pair db →
  game_sessions db !! i = Some s →
  GameSession.companion_id s' = GameSession.companion_id s →
  GameSession.game_id s' = GameSession.game_id s →
  (GameSession.is_active s' = true → GameSession.is_active s = true) →
  one_active_per_pair (commit_session db i s').
Proof.
  intros Hinv Hi Hc Hg Ha j k t1 t2. unfold commit_session. simpl.
  intros H1 H2 A1 A2 C G.
  assert (Hrow : ∀ n t, <[i:=s']> (game_sessions db) !! n = Some t →
            ∃ t0, game_sessions db !! n = Some t0
                  ∧ GameSession.companion_id t = GameSession.companion_id t0
                  ∧ GameSession.game_id t = GameSession.game_id t0
                  ∧ (GameSession.is_active t = true →
                     GameSession.is_active t0 = true)).
  { intros n t [(-> & -> & _)|[Hne Hn]]%list_lookup_insert_Some; eauto. }
  destruct (Hrow _ _ H1) as (u1 & U1 & C1 & G1 & B1).
  destruct (Hrow _ _ H2) as (u2 & U2 & C2 & G2 & B2).
  apply (Hinv j k u1 u2); auto; congruence.
Qed.

Lemma one_active_wrote db db' :
  one_active_per_pair db → wrote_state_only db db' → one_active_per_pair db'.
Proof.
  intros Hinv [->|(i & s & state & Hi & ->)]; [exact Hinv|].
  by eapply one_active_commit.
Qed.

Lemma play_word_chain_writes db sid word :
  wrote_state_only db (game_service.play_word_chain db sid word).2.
Proof.
  unfold game_service.play_word_chain.
  destruct (game_service.get_session db sid) as [[i s]|] eqn:Hget;
    [|by left].
  case_bool_decide; [by left|].
  match goal with
  | |- wrote_state_only _ (match ?b with _ => _ end).2 =>
      destruct b as [[?|state]|?]; [by left| |by left]
  end.
  right. exists i, s, state. split; [|reflexivity].
  by apply get_session_lookup in Hget as [? _].
Qed.

Lemma play_trivia_writes db sid answer :
  wrote_state_only db (game_service.play_trivia db sid answer).2.
Proof.
  unfold game_service.play_trivia.
  destruct (game_service.get_session db sid) as [[i s]|] eqn:Hget;
    [|by left].
  case_bool_decide; [by left|].
  match goal with
  | |- wrote_state_only _ (match ?b with _ => _ end).2 =>
      destruct b as [[?|[[[[state ?] ?] ?] ?]]|?]; [by left| |by left]
  end.
  right. exists i, s, state. split; [|reflexivity].
  by apply get_session_lookup in Hget as [? _].
Qed.

Lemma play_guess_number_writes db sid guess :
  wrote_state_only db (game_service.play_guess_number db sid guess).2.
Proof.
  unfold game_service.play_guess_number.
  destruct (game_service.get_session db sid) as [[i s]|] eqn:Hget;
    [|by left].
  case_bool_decide; [by left|].
  match goal with
  | |- wrote_state_only _ (match ?b with _ => _ end).2 =>
      destruct b as [[?|[[state ?] ?]]|?]; [by left| |by left]
  end.
  right. exists i, s, state. split; [|reflexivity].
  by apply get_session_lookup in Hget as [? _].
Qed.

Lemma one_active_add db s :
  one_active_per_pair db →
  game_service.get_active_session db (GameSession.companion_id s)
    (GameSession.game_id s) = None →
  one_active_per_pair (mkDB (game_sessions db ++ [s]) (game_records db)).
Proof.
  intros Hinv Hnone i j t1 t2. simpl.
  unfold game_service.get_active_session in Hnone.
  apply list_find_None in Hnone.
  assert (Hold : ∀ n t, game_sessions db !! n = Some t →
            GameSession.is_active t = true →
            GameSession.companion_id t = GameSession.companion_id s →
            GameSession.game_id t = GameSession.game_id s → False).
  { intros n t Hn A C G.
    apply (proj1 (Forall_lookup _ _) Hnone n t Hn). auto. }
  intros [H1|[L1 H1]]%lookup_app_Some [H2|[L2 H2]]%lookup_app_Some A1 A2 C G.
  - by apply (Hinv i j t1 t2).
  - apply list_lookup_singleton_Some in H2 as [_ <-].
    destruct (Hold i t1 H1 A1 C G).
  - apply list_lookup_singleton_Some in H1 as [_ <-].
    destruct (Hold j t2 H2 A2); congruence.
  - apply list_lookup_singleton_Some in H1 as [E1 _].
    apply list_lookup_singleton_Some in H2 as [E2 _]. lia.
Qed.

Lemma create_session_keeps_one_active e db g c :
  one_active_per_pair db →
  one_active_per_pair (games.create_session e db g c).2.
Proof.
  intros Hinv. unfold games.create_session.
  destruct (game_service.get_active_session db c g) as [[i s]|] eqn:Hact;
    [exact Hinv|].
  unfold game_service.create_session, add_session.
  case_bool_decide; [exact Hinv|]. simpl.
  by apply one_active_add.
Qed.

Lemma end_session_writes uuid db sid :
  (game_service.end_session uuid db sid).2 = db
  ∨ ∃ i s recs,
      game_sessions db !! i = Some s
      ∧ (game_service.end_session uuid db sid).2
        = mkDB (<[i := GameSession.set_is_active s false]> (game_sessions db))
               recs.
Proof.
  unfold game_service.end_session.
  destruct (game_service.get_session db sid) as [[i s]|] eqn:Hget;
    [|by left].
  apply get_session_lookup in Hget as [Hi _].
  destruct (as_int _) as [us|]; cbn [bind]; [|by left].
  destruct (as_int _) as [cs|]; cbn [bind]; [|by left].
  destruct (as_column _) as [rounds|]; cbn [bind]; [|by left].
  unfold add_record. case_bool_decide; cbn [bind]; [by left|].
  right. eauto.
Qed.

Lemma end_session_keeps_one_active uuid db sid :
  one_active_per_pair db →
  one_active_per_pair (games.end_session uuid db sid).2.
Proof.
  intros Hinv.
  assert (Hsvc : one_active_per_pair
                   (game_service.end_session uuid db sid).2).
  { destruct (end_session_writes uuid db sid)
      as [->|(i & s & recs & Hi & ->)]; [exact Hinv|].
    apply (one_active_commit (mkDB (game_sessions db) recs) i s); auto.
    intros [=]. }
  unfold games.end_session.
  destruct (game_service.end_session uuid db sid) as [[[r|]|x] db'];
    simpl in *; try exact Hsvc.
  by destruct (map_to_list r).
Qed.

Lemma handle_keeps_one_active db req :
  one_active_per_pair db → one_active_per_pair (handle db req).2.
Proof.
  intros Hinv. destruct req as [e g c|u sid|sid w|sid a|sid n]; simpl.
  - by apply create_session_keeps_one_active.
  - by apply end_session_keeps_one_active.
  - pose proof (play_word_chain_writes db sid w) as Hw.
    unfold games.play_word_chain.
    destruct (game_service.play_word_chain db sid w) as [[r|x] db'];
      simpl in *; repeat case_match; simpl; by eapply one_active_wrote.
  - pose proof (play_trivia_writes db sid a) as Hw.
    unfold games.play_trivia.
    destruct (game_service.play_trivia db sid a) as [[r|x] db'];
      simpl in *; repeat case_match; simpl; by eapply one_active_wrote.
  - pose proof (play_guess_number_writes db sid n) as Hw.
    unfold games.play_guess_number.
    destruct (game_service.play_guess_number db sid n) as [[r|x] db'];
      simpl in *; repeat case_match; simpl; by eapply one_active_wrote.
Qed.

Lemma serve_keeps_one_active reqs : ∀ db,
  one_active_per_pair db → one_active_per_pair (serve db reqs).
Proof.
  induction reqs as [|req reqs IH]; intros db Hinv; [exact Hinv|].
  unfold serve. simpl. apply IH. by apply handle_keeps_one_active.
Qed.


(** * Further properties of the game engine *)

(** ** word_chain, every case *)

(** [play_word_chain] on a word_chain session, whatever the word. *)
Lemma play_word_chain_cases (db : DB) (sid : str) (i : nat)
    (session : GameSession.t) (ws : list str) (cw : option str) (us r : Z)
    (word : str) :
  game_service.get_session db sid = Some (i, session) →
  GameSession.game_id session = py "word_chain" →
  GameSession.state session !! py "words_used" = Some (JList (JStr <$> ws)) →
  GameSession.state session !! py "current_word" = Some (opt_str cw) →
  GameSession.state session !! py "user_score" = Some (JInt us) →
  GameSession.state session !! py "rounds" = Some (JInt r) →
  game_service.play_word_chain db sid word =
    if bool_decide (word ∈ ws) then
      (Ok (word_rejected game_service.already_used), db)
    else
      match required_start cw, word with
      | None, _ => word_accepted db i session ws us r word
      | Some d, [] => (Raise IndexError, db)
      | Some d, c :: _ =>
          if bool_decide (c = d) then word_accepted db i session ws us r word
          else (Ok (word_rejected (game_service.must_start_with d)), db)
      end.
Proof.
  intros Hget Hgame Hws Hcw Hus Hr.
  unfold game_service.play_word_chain.
  rewrite Hget, (game_guard_pass _ _ Hgame).
  unfold GameSession.get_state.
  rewrite (dict_get_Some _ _ _ _ Hws), (dict_get_Some _ _ _ _ Hcw).
  rewrite str_in_words. cbn [bind].
  destruct (bool_decide (word ∈ ws)); [reflexivity|].
  assert (Haccept :
    match
      (let! words_used := dict_item (GameSession.state session)
                            (py "words_used") in
       let! append := append_of words_used in
       let state := <[py "words_used" := append (JStr word)]>
                      (GameSession.state session) in
       let state := <[py "current_word" := JStr word]> state in
       let! us := as_int (dict_get state (py "user_score") (JInt 0)) in
       let state := <[py "user_score" := JInt (us + 1)]> state in
       let! rounds := as_int (dict_get state (py "rounds") (JInt 0)) in
       let state := <[py "rounds" := JInt (rounds + 1)]> state in
       let state := <[py "turn" := JStr (py "companion")]> state in
       Ok (inr state) : res (dict + dict))
    with
    | Raise x => (Raise x, db)
    | Ok (inl result) => (Ok result, db)
    | Ok (inr state) =>
        (Ok (<[py "valid" := JBool true]>
             (<[py "word" := JStr word]>
             (<[py "state" := JObj state]> ∅))),
         commit_session db i (GameSession.set_state session state))
    end = word_accepted db i session ws us r word).
  { rewrite (dict_item_Some _ _ _ Hws). cbn [bind append_of].
    rewrite (dict_get_Some _ (py "user_score") (JInt us))
      by other_field Hus.
    cbn [as_int bind].
    rewrite (dict_get_Some _ (py "rounds") (JInt r)) by other_field Hr.
    cbn [as_int bind]. unfold word_accepted. by rewrite fmap_app. }
  destruct cw as [[|x xs]|]; cbn [opt_str truthy required_start].
  - cbn [bind]. simpl last. exact Haccept.
  - destruct (last (x :: xs)) as [d|] eqn:Hlast;
      [|by apply last_None in Hlast].
    destruct word as [|c rest]; [reflexivity|].
    cbn [str_first str_last bind]. rewrite Hlast. cbn [bind].
    destruct (decide (c = d)) as [->|Hne].
    + rewrite N.eqb_refl, bool_decide_eq_true_2 by done.
      cbn [negb bind]. exact Haccept.
    + rewrite (proj2 (N.eqb_neq c d) Hne), bool_decide_eq_false_2 by done.
      cbn [negb bind str_last]. rewrite ?Hlast. reflexivity.
  - cbn [bind]. exact Haccept.
Qed.

(** ** What the states keep *)

Lemma chained_snoc (ws : list str) (word : str) :
  chained ws →
  (∀ w, last ws = Some w → w = [] ∨ last w = head word) →
  chained (ws ++ [word]).
Proof.
  intros Hch Hlast i w1 w2 H1 H2.
  destruct (decide (S i < length ws)%nat) as [Hlt|Hge].
  - rewrite lookup_app_l in H1 by lia. rewrite lookup_app_l in H2 by lia.
    by apply (Hch i).
  - assert (Hi : S i = length ws).
    { apply lookup_lt_Some in H2. rewrite length_app in H2. simpl in H2. lia. }
    rewrite lookup_app_l in H1 by lia.
    rewrite lookup_app_r in H2 by lia.
    replace (S i - length ws)%nat with 0%nat in H2 by lia.
    injection H2 as <-. apply Hlast.
    rewrite last_lookup. rewrite <- Hi. simpl. exact H1.
Qed.

Lemma word_chain_ok_initial (e : entropy) :
  word_chain_ok (game_service._get_initial_state e (py "word_chain")).
Proof.
  exists []. split_and!; try reflexivity.
  - constructor.
  - intros i w1 w2 H. by rewrite lookup_nil in H.
Qed.

(** A move on a sound word_chain state leaves the state sound. *)
Lemma play_word_chain_keeps_ok db sid i s word :
  game_service.get_session db sid = Some (i, s) →
  GameSession.game_id s = py "word_chain" →
  word_chain_ok (GameSession.state s) →
  (game_service.play_word_chain db sid word).2 = db
  ∨ ∃ st', (game_service.play_word_chain db sid word).2
             = commit_session db i (GameSession.set_state s st')
           ∧ word_chain_ok st'.
Proof.
  intros Hget Hgame (ws & Hws & Hcw & Hus & Hr & Hnd & Hch).
  rewrite (play_word_chain_cases db sid i s ws (last ws) _ _ word
             Hget Hgame Hws Hcw Hus Hr).
  case_bool_decide as Hin; [by left|].
  assert (Hok : (∀ w, last ws = Some w → w = [] ∨ last w = head word) →
    (word_accepted db i s ws (Z.of_nat (length ws))
       (Z.of_nat (length ws)) word).2 = db
    ∨ ∃ st', (word_accepted db i s ws (Z.of_nat (length ws))
                (Z.of_nat (length ws)) word).2
             = commit_session db i (GameSession.set_state s st')
           ∧ word_chain_ok st').
  { intros Hlast. right. eexists. split; [reflexivity|].
    exists (ws ++ [word]).
    assert (Hlen : Z.of_nat (length (ws ++ [word]))
                   = Z.of_nat (length ws) + 1).
    { rewrite length_app. simpl. lia. }
    split_and!.
    - repeat (rewrite lookup_insert_ne by literals). apply lookup_insert_eq.
    - repeat (rewrite lookup_insert_ne by literals).
      rewrite lookup_insert_eq. by rewrite last_snoc.
    - repeat (rewrite lookup_insert_ne by literals).
      rewrite lookup_insert_eq. by rewrite Hlen.
    - repeat (rewrite lookup_insert_ne by literals).
      rewrite lookup_insert_eq. by rewrite Hlen.
    - apply NoDup_app. split_and!; [done| |apply NoDup_singleton].
      intros x Hx ->%list_elem_of_singleton. contradiction.
    - by apply chained_snoc. }
  destruct (last ws) as [w|] eqn:Hlast; cbn [required_start].
  - destruct (last w) as [d|] eqn:Hw.
    + destruct word as [|c rest]; [by left|].
      case_bool_decide as Hcd; [|by left].
      apply Hok. intros w' [= <-]. right. rewrite Hw. simpl. by subst.
    + apply Hok. intros w' [= <-]. left. by apply last_None.
  - apply Hok. intros w' [=].
Qed.

(** [play_trivia] on a trivia session with a question left. *)
Lemma play_trivia_step (db : DB) (sid : str) (i : nat) (s : GameSession.t)
    (qs : list json) (ci : Z) (q : dict) (a : str) (qt : json) (us : Z)
    (ans : list json) (answer : str) :
  game_service.get_session db sid = Some (i, s) →
  GameSession.game_id s = py "trivia" →
  GameSession.state s !! py "questions" = Some (JList qs) →
  GameSession.state s !! py "current_index" = Some (JInt ci) →
  ci < Z.of_nat (length qs) →
  list_item (JList qs) ci = Ok (JObj q) →
  q !! py "answer" = Some (JStr a) →
  q !! py "question" = Some qt →
  GameSession.state s !! py "user_score" = Some (JInt us) →
  GameSession.state s !! py "answers" = Some (JList ans) →
  game_service.play_trivia db sid answer
    = (Ok (<[py "correct" := JBool (bool_decide (answer = a))]>
           (<[py "correct_answer" := JStr a]>
           (<[py "finished" := JBool (Z.of_nat (length qs) <=? ci + 1)]>
           (<[py "state" :=
                JObj (trivia_answered (GameSession.state s) ci us ans qt
                        answer a)]> ∅)))),
       commit_session db i
         (GameSession.set_state s
            (trivia_answered (GameSession.state s) ci us ans qt answer a))).
Proof.
  intros Hget Hgame Hqs Hci Hhi Hq Ha Hqt Hus Hans.
  unfold game_service.play_trivia, trivia_answered, trivia_entry.
  rewrite Hget, (game_guard_pass _ _ Hgame).
  unfold GameSession.get_state.
  rewrite (dict_get_Some _ _ _ _ Hqs), (dict_get_Some _ _ _ _ Hci).
  cbn [py_len as_int bind].
  destruct (ci >=? Z.of_nat (length qs)) eqn:Hcmp; [lia|].
  rewrite Hq. cbn [bind obj_item].
  rewrite (dict_item_Some _ _ _ Ha). cbn [bind str_eq].
  rewrite (dict_item_Some _ _ _ Hqt).
  destruct (bool_decide (answer = a)).
  - rewrite (dict_get_Some _ _ _ _ Hus). cbn [as_int bind].
    rewrite (dict_item_Some _ (py "answers") (JList ans))
      by (rewrite lookup_insert_ne by literals; exact Hans).
    cbn [bind append_of]. by rewrite Z.geb_leb.
  - cbn [bind]. rewrite (dict_item_Some _ _ _ Hans). cbn [bind append_of].
    rewrite (insert_id _ _ _ Hus). by rewrite Z.geb_leb.
Qed.

(** [play_trivia] on a trivia session without a question left. *)
Lemma play_trivia_over (db : DB) (sid : str) (i : nat) (s : GameSession.t)
    (qs : list json) (ci : Z) (answer : str) :
  game_service.get_session db sid = Some (i, s) →
  GameSession.game_id s = py "trivia" →
  GameSession.state s !! py "questions" = Some (JList qs) →
  GameSession.state s !! py "current_index" = Some (JInt ci) →
  Z.of_nat (length qs) ≤ ci →
  game_service.play_trivia db sid answer
    = (Ok (<[py "error" := JStr (py "No more questions")]>
           (<[py "finished" := JBool true]> ∅)), db).
Proof.
  intros Hget Hgame Hqs Hci Hle.
  unfold game_service.play_trivia.
  rewrite Hget, (game_guard_pass _ _ Hgame).
  unfold GameSession.get_state.
  rewrite (dict_get_Some _ _ _ _ Hqs), (dict_get_Some _ _ _ _ Hci).
  simpl. destruct (ci >=? Z.of_nat (length qs)) eqn:Hcmp; [reflexivity|lia].
Qed.

Lemma zip_with_snoc {A B C} (f : A → B → C) (l : list A) (k : list B)
    (x : A) (y : B) :
  l !! length k = Some x →
  zip_with f l (k ++ [y]) = zip_with f l k ++ [f x y].
Proof.
  revert l. induction k as [|b k IH]; intros [|a l] Hx; simpl in *;
    try discriminate.
  - injection Hx as ->. by destruct l.
  - f_equal. by apply IH.
Qed.

Lemma trivia_ok_initial (e : entropy) :
  Forall (λ q, q ∈ game_service.TRIVIA_QUESTIONS) (random_sample e) →
  trivia_ok (game_service._get_initial_state e (py "trivia")).
Proof.
  intros Hsample. exists (random_sample e), [].
  split_and!; try reflexivity.
  - eapply Forall_impl; [exact Hsample|].
    intros q Hq. unfold game_service.TRIVIA_QUESTIONS in Hq.
    repeat (apply elem_of_cons in Hq as [->|Hq]);
      [..|by apply not_elem_of_nil in Hq];
      eexists _, _, _; (split; [reflexivity|]); split; reflexivity.
  - simpl. lia.
  - simpl. by destruct (random_sample e).
  - simpl. by destruct (random_sample e).
Qed.

(** An answer on a sound trivia state is never an error of the server and
    leaves the state sound. *)
Lemma play_trivia_keeps_ok db sid i s answer :
  game_service.get_session db sid = Some (i, s) →
  GameSession.game_id s = py "trivia" →
  trivia_ok (GameSession.state s) →
  (∃ result, (game_service.play_trivia db sid answer).1 = Ok result)
  ∧ ((game_service.play_trivia db sid answer).2 = db
     ∨ ∃ st', (game_service.play_trivia db sid answer).2
                = commit_session db i (GameSession.set_state s st')
              ∧ trivia_ok st').
Proof.
  intros Hget Hgame (qs & given & Hqs & Hall & Hlen & Hci & Hans & Hus).
  destruct (decide (length given < length qs)%nat) as [Hlt|Hge].
  - destruct (lookup_lt_is_Some_2 qs (length given) Hlt) as [q Hq].
    destruct (proj1 (Forall_lookup _ _) Hall _ _ Hq)
      as (m & a & qt & -> & Ha & Hqt).
    assert (Hlt' : Z.of_nat (length given) < Z.of_nat (length qs)) by lia.
    assert (Hitem : list_item (JList qs) (Z.of_nat (length given))
                    = Ok (JObj m)).
    { apply list_item_front; [lia|]. by rewrite Nat2Z.id. }
    rewrite (play_trivia_step db sid i s qs _ m a qt _ _ answer
               Hget Hgame Hqs Hci Hlt' Hitem Ha Hqt Hus Hans).
    split; [eauto|]. right. eexists. split; [reflexivity|].
    exists qs, (given ++ [answer]).
    assert (Hentry : answered (JObj m) answer = trivia_entry qt answer a).
    { unfold answered, trivia_entry.
      rewrite (dict_get_Some _ _ _ _ Ha), (dict_get_Some _ _ _ _ Hqt).
      reflexivity. }
    assert (Hcorrect : entry_correct (trivia_entry qt answer a)
                       = bool_decide (answer = a)).
    { unfold entry_correct, trivia_entry.
      repeat (rewrite lookup_insert_ne by literals).
      by rewrite lookup_insert_eq. }
    rewrite (zip_with_snoc _ _ _ _ _ Hq), Hentry.
    unfold trivia_answered. split_and!.
    + repeat (rewrite lookup_insert_ne by literals). exact Hqs.
    + exact Hall.
    + rewrite length_app. simpl. lia.
    + rewrite lookup_insert_eq. do 2 f_equal. rewrite length_app. simpl. lia.
    + rewrite lookup_insert_ne by literals. by rewrite lookup_insert_eq.
    + repeat (rewrite lookup_insert_ne by literals).
      rewrite lookup_insert_eq. do 2 f_equal.
      rewrite filter_app, length_app, filter_cons, Hcorrect.
      case_bool_decide; case_decide; try congruence; simpl; lia.
  - assert (Hge' : Z.of_nat (length qs) ≤ Z.of_nat (length given)) by lia.
    rewrite (play_trivia_over db sid i s qs _ answer
               Hget Hgame Hqs Hci Hge').
    split; [eauto | by left].
Qed.

(** [play_guess_number] on an unfinished guess_number session. *)
Lemma play_guess_number_step (db : DB) (sid : str) (i : nat)
    (s : GameSession.t) (t : Z) (gs : list json) (m lo hi : Z) (guess : Z) :
  game_service.get_session db sid = Some (i, s) →
  GameSession.game_id s = py "guess_number" →
  GameSession.state s !! py "target" = Some (JInt t) →
  GameSession.state s !! py "guesses" = Some (JList gs) →
  GameSession.state s !! py "max_guesses" = Some (JInt m) →
  GameSession.state s !! py "won" = Some (JBool false) →
  GameSession.state s !! py "min_range" = Some (JInt lo) →
  GameSession.state s !! py "max_range" = Some (JInt hi) →
  Z.of_nat (length gs) < m →
  let finished := (guess =? t) || (m <=? Z.of_nat (length gs) + 1) in
  game_service.play_guess_number db sid guess
    = (Ok (<[py "guess" := JInt guess]>
           (<[py "hint" := JStr (hint_of t guess)]>
           (<[py "finished" := JBool finished]>
           (<[py "won" := JBool (guess =? t)]>
           (<[py "target" := if finished then JInt t else JNull]>
           (<[py "state" :=
                JObj (guessed (GameSession.state s) t gs m lo hi guess)]>
              ∅)))))),
       commit_session db i
         (GameSession.set_state s
            (guessed (GameSession.state s) t gs m lo hi guess))).
Proof.
  intros Hget Hgame Ht Hgs Hm Hwon Hlo Hhi Hlt finished.
  unfold game_service.play_guess_number, guessed, hint_of.
  rewrite Hget, (game_guard_pass _ _ Hgame).
  unfold GameSession.get_state.
  rewrite (dict_get_Some _ _ _ _ Ht), (dict_get_Some _ _ _ _ Hgs),
    (dict_get_Some _ _ _ _ Hm), (dict_get_Some _ _ _ _ Hwon).
  cbn [truthy py_len as_int bind].
  destruct (Z.of_nat (length gs) >=? m) eqn:Hcmp; [lia|].
  cbn [append_of bind int_eq py_len as_int].
  assert (Hlen : Z.of_nat (length (gs ++ [JInt guess]))
                 = Z.of_nat (length gs) + 1).
  { rewrite length_app. simpl. lia. }
  rewrite ?Hlen. subst finished.
  destruct (guess =? t) eqn:Heq.
  - cbn [bind]. rewrite (dict_item_Some _ (py "won") (JBool true)).
    2:{ rewrite lookup_insert_ne by literals. apply lookup_insert_eq. }
    reflexivity.
  - cbn [bind]. destruct (guess <? t) eqn:Hless.
    + rewrite (dict_get_Some _ (py "min_range") (JInt lo))
        by other_field Hlo.
      cbn [as_int bind].
      rewrite (dict_item_Some _ (py "won") (JBool false))
        by other_field Hwon.
      cbn [bind truthy py_len as_int]. by rewrite Hlen, Z.geb_leb.
    + rewrite (dict_get_Some _ (py "max_range") (JInt hi))
        by other_field Hhi.
      cbn [as_int bind].
      rewrite (dict_item_Some _ (py "won") (JBool false))
        by other_field Hwon.
      cbn [bind truthy py_len as_int]. by rewrite Hlen, Z.geb_leb.
Qed.

(** [play_guess_number] on a finished guess_number session. *)
Lemma play_guess_number_over (db : DB) (sid : str) (i : nat)
    (s : GameSession.t) (gs : list json) (m : Z) (won : bool) (guess : Z) :
  game_service.get_session db sid = Some (i, s) →
  GameSession.game_id s = py "guess_number" →
  GameSession.state s !! py "won" = Some (JBool won) →
  GameSession.state s !! py "guesses" = Some (JList gs) →
  GameSession.state s !! py "max_guesses" = Some (JInt m) →
  won = true ∨ m ≤ Z.of_nat (length gs) →
  game_service.play_guess_number db sid guess
    = (Ok (<[py "error" := JStr (py "Game already finished")]>
           (<[py "finished" := JBool true]> ∅)), db).
Proof.
  intros Hget Hgame Hwon Hgs Hm Hover.
  unfold game_service.play_guess_number.
  rewrite Hget, (game_guard_pass _ _ Hgame).
  unfold GameSession.get_state.
  rewrite (dict_get_Some _ _ _ _ Hwon), (dict_get_Some _ _ _ _ Hgs),
    (dict_get_Some _ _ _ _ Hm).
  simpl. destruct won; [reflexivity|]. simpl.
  destruct Hover as [[=]|Hle].
  destruct (Z.of_nat (length gs) >=? m) eqn:Hcmp; [reflexivity|lia].
Qed.

Lemma guess_number_ok_initial (e : entropy) :
  1 ≤ random_randint e → random_randint e ≤ 100 →
  guess_number_ok (game_service._get_initial_state e (py "guess_number")).
Proof.
  intros Hlo Hhi. exists (random_randint e), 1, 100, [], false.
  split_and!; try reflexivity; try lia.
  - simpl. lia.
  - constructor.
  - by intros ?%not_elem_of_nil.
Qed.

(** A guess on a sound guess_number state is never an error of the server
    and leaves the state sound. *)
Lemma play_guess_number_keeps_ok db sid i s guess :
  game_service.get_session db sid = Some (i, s) →
  GameSession.game_id s = py "guess_number" →
  guess_number_ok (GameSession.state s) →
  (∃ result, (game_service.play_guess_number db sid guess).1 = Ok result)
  ∧ ((game_service.play_guess_number db sid guess).2 = db
     ∨ ∃ st', (game_service.play_guess_number db sid guess).2
                = commit_session db i (GameSession.set_state s st')
              ∧ guess_number_ok st').
Proof.
  intros Hget Hgame
    (t & lo & hi & gs & won & Ht & Hlo & Hhi & Hgs & Hm & Hwon
     & L1 & L2 & L3 & L4 & Hlen & Hout & Hscore).
  destruct (decide (won = true ∨ 7 ≤ Z.of_nat (length (JInt <$> gs))))
    as [Hover|Hopen].
  { rewrite (play_guess_number_over db sid i s _ 7 won guess
               Hget Hgame Hwon Hgs Hm Hover).
    split; [eauto | by left]. }
  assert (won = false) as -> by (destruct won; tauto).
  rewrite length_fmap in Hopen.
  assert (Hlt : Z.of_nat (length (JInt <$> gs)) < 7)
    by (rewrite length_fmap; lia).
  rewrite (play_guess_number_step db sid i s t _ 7 lo hi guess
             Hget Hgame Ht Hgs Hm Hwon Hlo Hhi Hlt).
  split; [eauto|]. right. eexists. split; [reflexivity|].
  destruct Hscore as [Hnin Hnone].
  assert (Hgs' : JInt <$> (gs ++ [guess]) = (JInt <$> gs) ++ [JInt guess])
    by (by rewrite fmap_app).
  assert (Hlen' : length (gs ++ [guess]) = S (length gs))
    by (rewrite length_app; simpl; lia).
  assert (Hroom : (length gs < 7)%nat).
  { destruct (decide (length gs < 7)%nat); [done|].
    exfalso. apply Hopen. right. lia. }
  unfold guessed. rewrite length_fmap.
  destruct (guess =? t) eqn:Heq; [|destruct (guess <? t) eqn:Hless].
  - apply Z.eqb_eq in Heq as ->.
    exists t, lo, hi, (gs ++ [t]), true. rewrite Hgs', Hlen'.
    split_and!; try done; try lia.
    + by other_field Ht.
    + by other_field Hlo.
    + by other_field Hhi.
    + repeat (rewrite lookup_insert_ne by literals). apply lookup_insert_eq.
    + by other_field Hm.
    + rewrite lookup_insert_ne by literals. apply lookup_insert_eq.
    + apply Forall_app. split; [exact Hout|]. apply Forall_singleton. by left.
    + apply last_snoc.
    + rewrite lookup_insert_eq. do 2 f_equal. lia.
  - apply Z.ltb_lt in Hless.
    exists t, (Z.max lo (guess + 1)), hi, (gs ++ [guess]), false.
    rewrite Hgs', Hlen'.
    split_and!; try done; try lia.
    + by other_field Ht.
    + apply lookup_insert_eq.
    + by other_field Hhi.
    + rewrite lookup_insert_ne by literals. apply lookup_insert_eq.
    + by other_field Hm.
    + by other_field Hwon.
    + apply Forall_app. split.
      * eapply Forall_impl; [exact Hout|]. simpl. lia.
      * apply Forall_singleton. lia.
    + intros [Hin|Hin]%elem_of_app; [done|].
      apply list_elem_of_singleton in Hin. lia.
    + by other_field Hnone.
  - apply Z.ltb_ge in Hless. apply Z.eqb_neq in Heq.
    exists t, lo, (Z.min hi (guess - 1)), (gs ++ [guess]), false.
    rewrite Hgs', Hlen'.
    split_and!; try done; try lia.
    + by other_field Ht.
    + by other_field Hlo.
    + apply lookup_insert_eq.
    + rewrite lookup_insert_ne by literals. apply lookup_insert_eq.
    + by other_field Hm.
    + by other_field Hwon.
    + apply Forall_app. split.
      * eapply Forall_impl; [exact Hout|]. simpl. lia.
      * apply Forall_singleton. lia.
    + intros [Hin|Hin]%elem_of_app; [done|].
      apply list_elem_of_singleton in Hin. lia.
    + by other_field Hnone.
Qed.

(** The routes write what the service wrote. *)
Lemma games_end_session_writes uuid db sid :
  (games.end_session uuid db sid).2
    = (game_service.end_session uuid db sid).2.
Proof.
  unfold games.end_session.
  destruct (game_service.end_session uuid db sid) as [[[r|]|x] db'];
    try reflexivity.
  simpl. by destruct (map_to_list r).
Qed.

Lemma games_play_word_chain_writes db sid word :
  (games.play_word_chain db sid word).2
    = (game_service.play_word_chain db sid word).2.
Proof.
  unfold games.play_word_chain.
  destruct (game_service.play_word_chain db sid word) as [[r|x] db'];
    [|reflexivity].
  by repeat case_match.
Qed.

Lemma games_play_trivia_writes db sid answer :
  (games.play_trivia db sid answer).2
    = (game_service.play_trivia db sid answer).2.
Proof.
  unfold games.play_trivia.
  destruct (game_service.play_trivia db sid answer) as [[r|x] db'];
    [|reflexivity].
  by repeat case_match.
Qed.

Lemma games_play_guess_number_writes db sid guess :
  (games.play_guess_number db sid guess).2
    = (game_service.play_guess_number db sid guess).2.
Proof.
  unfold games.play_guess_number.
  destruct (game_service.play_guess_number db sid guess) as [[r|x] db'];
    [|reflexivity].
  by repeat case_match.
Qed.

(** A play function leaves alone a session of another game. *)
Lemma play_word_chain_other_game db sid i s word :
  game_service.get_session db sid = Some (i, s) →
  GameSession.game_id s ≠ py "word_chain" →
  game_service.play_word_chain db sid word
    = (Ok game_service.invalid_session, db).
Proof.
  intros Hget Hgame. unfold game_service.play_word_chain.
  by rewrite Hget, (game_guard_stop _ _ Hgame).
Qed.

Lemma play_trivia_other_game db sid i s answer :
  game_service.get_session db sid = Some (i, s) →
  GameSession.game_id s ≠ py "trivia" →
  game_service.play_trivia db sid answer
    = (Ok game_service.invalid_session, db).
Proof.
  intros Hget Hgame. unfold game_service.play_trivia.
  by rewrite Hget, (game_guard_stop _ _ Hgame).
Qed.

Lemma play_guess_number_other_game db sid i s guess :
  game_service.get_session db sid = Some (i, s) →
  GameSession.game_id s ≠ py "guess_number" →
  game_service.play_guess_number db sid guess
    = (Ok game_service.invalid_session, db).
Proof.
  intros Hget Hgame. unfold game_service.play_guess_number.
  by rewrite Hget, (game_guard_stop _ _ Hgame).
Qed.

Lemma play_word_chain_missing db sid word :
  game_service.get_session db sid = None →
  game_service.play_word_chain db sid word
    = (Ok game_service.invalid_session, db).
Proof. intros Hget. unfold game_service.play_word_chain. by rewrite Hget. Qed.

Lemma play_trivia_missing db sid answer :
  game_service.get_session db sid = None →
  game_service.play_trivia db sid answer
    = (Ok game_service.invalid_session, db).
Proof. intros Hget. unfold game_service.play_trivia. by rewrite Hget. Qed.

Lemma play_guess_number_missing db sid guess :
  game_service.get_session db sid = None →
  game_service.play_guess_number db sid guess
    = (Ok game_service.invalid_session, db).
Proof.
  intros Hget. unfold game_service.play_guess_number. by rewrite Hget.
Qed.

(** *** Every session of a reachable database is sound *)

Lemma sessions_ok_empty : sessions_ok empty_db.
Proof. constructor. Qed.

Lemma session_ok_row db i s :
  sessions_ok db → game_sessions db !! i = Some s → session_ok s.
Proof. intros Hok Hi. exact (proj1 (Forall_lookup _ _) Hok i s Hi). Qed.

Lemma sessions_ok_commit db i s' :
  sessions_ok db → session_ok s' → sessions_ok (commit_session db i s').
Proof. intros Hok Hs. by apply Forall_insert. Qed.

(** A new state for a session of game [g] that suits [g]. *)
Lemma session_ok_state s st :
  (GameSession.game_id s = py "word_chain" → word_chain_ok st) →
  (GameSession.game_id s = py "trivia" → trivia_ok st) →
  (GameSession.game_id s = py "guess_number" → guess_number_ok st) →
  session_ok (GameSession.set_state s st).
Proof. intros H1 H2 H3. by split_and!. Qed.

Lemma session_ok_created e g c :
  fair (PostSession e g c) →
  session_ok
    (GameSession.set_state (GameSession.mk (uuid4 e) g c ∅ true)
       (game_service._get_initial_state e g)).
Proof.
  intros ([Hlo Hhi] & Hsample). apply session_ok_state; simpl; intros ->.
  - apply word_chain_ok_initial.
  - by apply trivia_ok_initial.
  - by apply guess_number_ok_initial.
Qed.

Lemma handle_keeps_sessions_ok db req :
  fair req → sessions_ok db → sessions_ok (handle db req).2.
Proof.
  intros Hfair Hok. destruct req as [e g c|u sid|sid w|sid a|sid n]; simpl.
  - unfold games.create_session.
    destruct (game_service.get_active_session db c g) as [[i s]|];
      [exact Hok|].
    unfold game_service.create_session, add_session.
    case_bool_decide; [exact Hok|]. simpl.
    apply Forall_app. split; [exact Hok|].
    apply Forall_singleton. by apply session_ok_created.
  - rewrite games_end_session_writes.
    destruct (end_session_writes u db sid)
      as [->|(i & s & recs & Hi & ->)]; [exact Hok|].
    apply (sessions_ok_commit (mkDB (game_sessions db) recs)); [exact Hok|].
    exact (session_ok_row db i s Hok Hi).
  - rewrite games_play_word_chain_writes.
    destruct (game_service.get_session db sid) as [[i s]|] eqn:Hget;
      [|by rewrite play_word_chain_missing].
    destruct (decide (GameSession.game_id s = py "word_chain")) as [Hg|Hg];
      [|by rewrite (play_word_chain_other_game db sid i s)].
    pose proof (get_session_lookup _ _ _ _ Hget) as [Hi _].
    destruct (session_ok_row db i s Hok Hi) as (Hwc & _ & _).
    destruct (play_word_chain_keeps_ok db sid i s w Hget Hg (Hwc Hg))
      as [->|(st' & -> & Hst')]; [exact Hok|].
    apply sessions_ok_commit; [exact Hok|].
    apply session_ok_state; [done|..]; rewrite Hg; literals.
  - rewrite games_play_trivia_writes.
    destruct (game_service.get_session db sid) as [[i s]|] eqn:Hget;
      [|by rewrite play_trivia_missing].
    destruct (decide (GameSession.game_id s = py "trivia")) as [Hg|Hg];
      [|by rewrite (play_trivia_other_game db sid i s)].
    pose proof (get_session_lookup _ _ _ _ Hget) as [Hi _].
    destruct (session_ok_row db i s Hok Hi) as (_ & Htr & _).
    destruct (play_trivia_keeps_ok db sid i s a Hget Hg (Htr Hg))
      as [_ [->|(st' & -> & Hst')]]; [exact Hok|].
    apply sessions_ok_commit; [exact Hok|].
    apply session_ok_state; [|done|]; rewrite Hg; literals.
  - rewrite games_play_guess_number_writes.
    destruct (game_service.get_session db sid) as [[i s]|] eqn:Hget;
      [|by rewrite play_guess_number_missing].
    destruct (decide (GameSession.game_id s = py "guess_number")) as [Hg|Hg];
      [|by rewrite (play_guess_number_other_game db sid i s)].
    pose proof (get_session_lookup _ _ _ _ Hget) as [Hi _].
    destruct (session_ok_row db i s Hok Hi) as (_ & _ & Hgn).
    destruct (play_guess_number_keeps_ok db sid i s n Hget Hg (Hgn Hg))
      as [_ [->|(st' & -> & Hst')]]; [exact Hok|].
    apply sessions_ok_commit; [exact Hok|].
    apply session_ok_state; [..|done]; rewrite Hg; literals.
Qed.

Lemma serve_keeps_sessions_ok reqs : ∀ db,
  Forall fair reqs → sessions_ok db → sessions_ok (serve db reqs).
Proof.
  induction reqs as [|req reqs IH]; intros db Hfair Hok; [exact Hok|].
  apply Forall_cons in Hfair as [Hreq Hfair].
  unfold serve. simpl. apply IH; [exact Hfair|].
  by apply handle_keeps_sessions_ok.
Qed.

(** X1. In every database that the server reaches from the empty one,
    a word_chain session holds a list [words_used] without repetition in
    which each word but an empty one hands its last character to the
    next; [current_word] is the last of these words (null when there is
    none), and [user_score] and [rounds] both count them. *)
Theorem word_chain_sessions_sound (reqs : list request) (i : nat)
    (s : GameSession.t) :
  Forall fair reqs →
  game_sessions (serve empty_db reqs) !! i = Some s →
  GameSession.game_id s = py "word_chain" →
  word_chain_ok (GameSession.state s).
Proof.
  intros Hfair Hi Hg.
  pose proof (serve_keeps_sessions_ok reqs empty_db Hfair sessions_ok_empty)
    as Hok.
  by destruct (session_ok_row _ i s Hok Hi) as (H & _ & _); apply H.
Qed.

(** X2. In every database that the server reaches from the empty one
    with draws from the question pool, a trivia session has answered a
    prefix of its questions: [current_index] is the number of entries of
    [answers] and is at most the number of questions, the k-th entry
    records the k-th question with the answer given and whether it equals
    the question's answer, and [user_score] is the number of entries
    recorded as correct. *)
Theorem trivia_sessions_sound (reqs : list request) (i : nat)
    (s : GameSession.t) :
  Forall fair reqs →
  game_sessions (serve empty_db reqs) !! i = Some s →
  GameSession.game_id s = py "trivia" →
  trivia_ok (GameSession.state s).
Proof.
  intros Hfair Hi Hg.
  pose proof (serve_keeps_sessions_ok reqs empty_db Hfair sessions_ok_empty)
    as Hok.
  by destruct (session_ok_row _ i s Hok Hi) as (_ & H & _); apply H.
Qed.

(** X3. In every database that the server reaches from the empty one
    with targets drawn from 1..100, a guess_number session keeps
    1 <= min_range <= target <= max_range <= 100 and at most 7 guesses;
    every guess made is the target or lies outside
    [min_range, max_range]; the game is won exactly when the last guess
    is the target, and then [user_score] is 7 - length(guesses) + 1;
    before that the target is not among the guesses and there is no
    [user_score]. *)
Theorem guess_number_sessions_sound (reqs : list request) (i : nat)
    (s : GameSession.t) :
  Forall fair reqs →
  game_sessions (serve empty_db reqs) !! i = Some s →
  GameSession.game_id s = py "guess_number" →
  guess_number_ok (GameSession.state s).
Proof.
  intros Hfair Hi Hg.
  pose proof (serve_keeps_sessions_ok reqs empty_db Hfair sessions_ok_empty)
    as Hok.
  by destruct (session_ok_row _ i s Hok Hi) as (_ & _ & H); apply H.
Qed.

(** X4. The empty word in word_chain.  When it has been used it is
    rejected as such.  Otherwise, when the current word has a last
    character, [word[0]] raises IndexError: the service raises, the route
    answers 500, and nothing is written; when no current word is set, or
    the current word is itself empty, the empty word is accepted like any
    other. *)
Theorem empty_word_behaviour (db : DB) (sid : str) (i : nat)
    (session : GameSession.t) (ws : list str) (cw : option str) (us r : Z) :
  game_service.get_session db sid = Some (i, session) →
  GameSession.game_id session = py "word_chain" →
  GameSession.state session !! py "words_used" = Some (JList (JStr <$> ws)) →
  GameSession.state session !! py "current_word" = Some (opt_str cw) →
  GameSession.state session !! py "user_score" = Some (JInt us) →
  GameSession.state session !! py "rounds" = Some (JInt r) →
  ([] ∈ ws →
     game_service.play_word_chain db sid []
       = (Ok (word_rejected game_service.already_used), db))
  ∧ ([] ∉ ws → ∀ d, required_start cw = Some d →
     game_service.play_word_chain db sid [] = (Raise IndexError, db)
     ∧ games.play_word_chain db sid [] = (internal_server_error, db))
  ∧ ([] ∉ ws → required_start cw = None →
     game_service.play_word_chain db sid []
       = word_accepted db i session ws us r []).
Proof.
  intros Hget Hgame Hws Hcw Hus Hr.
  pose proof (play_word_chain_cases db sid i session ws cw us r []
                Hget Hgame Hws Hcw Hus Hr) as Hplay.
  split_and!.
  - intros Hin. by rewrite bool_decide_eq_true_2 in Hplay.
  - intros Hnin d Hd.
    rewrite bool_decide_eq_false_2, Hd in Hplay by done.
    split; [exact Hplay|]. unfold games.play_word_chain. by rewrite Hplay.
  - intros Hnin Hd.
    by rewrite bool_decide_eq_false_2, Hd in Hplay.
Qed.

(** ** The status codes of the play routes *)

(** Walk through a play function: case on the bind or the test that the
    result hangs on, one after the other. *)
Ltac walk :=
  repeat match goal with
         | |- context [match bind ?r _ with _ => _ end] =>
             destruct r eqn:?; cbn [bind]
         | |- context [match (if ?b then _ else _) with _ => _ end] =>
             destruct b eqn:?
         | |- context [match ?p with _ => _ end] => is_var p; destruct p
         end.

Ltac not_this_status :=
  let E := fresh "E" in
  intros E; vm_compute in E; discriminate E.

(** A branch whose test on a literal dictionary went the other way. *)
Ltac dead_branch :=
  match goal with
  | H : _ = true |- _ => vm_compute in H; discriminate H
  | H : _ = false |- _ => vm_compute in H; discriminate H
  end.

Ltac leaf := first [not_this_status | dead_branch].

Lemma play_trivia_right_game_not_400 db sid i s answer :
  game_service.get_session db sid = Some (i, s) →
  GameSession.game_id s = py "trivia" →
  status_of (games.play_trivia db sid answer).1 ≠ 400.
Proof.
  intros Hget Hgame.
  unfold games.play_trivia, game_service.play_trivia.
  rewrite Hget, (game_guard_pass _ _ Hgame).
  walk. all: leaf.
Qed.

Lemma play_guess_number_right_game_not_400 db sid i s guess :
  game_service.get_session db sid = Some (i, s) →
  GameSession.game_id s = py "guess_number" →
  status_of (games.play_guess_number db sid guess).1 ≠ 400.
Proof.
  intros Hget Hgame.
  unfold games.play_guess_number, game_service.play_guess_number.
  rewrite Hget, (game_guard_pass _ _ Hgame).
  walk. all: leaf.
Qed.

Lemma play_word_chain_right_game_not_400 db sid i s word :
  game_service.get_session db sid = Some (i, s) →
  GameSession.game_id s = py "word_chain" →
  status_of (games.play_word_chain db sid word).1 ≠ 400.
Proof.
  intros Hget Hgame.
  unfold games.play_word_chain, game_service.play_word_chain.
  rewrite Hget, (game_guard_pass _ _ Hgame).
  walk. all: leaf.
Qed.


Lemma no_session_of_game_dec game db sid :
  no_session_of_game game db sid
  ∨ ∃ i s, game_service.get_session db sid = Some (i, s)
           ∧ GameSession.game_id s = game.
Proof.
  unfold no_session_of_game.
  destruct (game_service.get_session db sid) as [[i s]|];
    [|left; by left].
  destruct (decide (GameSession.game_id s = game)); [right|left; right];
    eauto.
Qed.

Lemma no_session_of_game_excl game db sid i s :
  no_session_of_game game db sid →
  game_service.get_session db sid = Some (i, s) →
  GameSession.game_id s = game → False.
Proof.
  intros [Hnone|(j & t & Hget & Hne)] Hs Hg; [congruence|].
  rewrite Hs in Hget. injection Hget as <- <-. contradiction.
Qed.

(** X5. A play route answers 400 exactly when the session id does not
    resolve or the session belongs to another game: a move that the rules
    reject, a finished game and an accepted move are never answered with
    400. *)
Theorem play_answers_400_iff_invalid_session (db : DB) (sid : str) :
  (∀ word,
     status_of (games.play_word_chain db sid word).1 = 400
     ↔ no_session_of_game (py "word_chain") db sid)
  ∧ (∀ answer,
     status_of (games.play_trivia db sid answer).1 = 400
     ↔ no_session_of_game (py "trivia") db sid)
  ∧ (∀ guess,
     status_of (games.play_guess_number db sid guess).1 = 400
     ↔ no_session_of_game (py "guess_number") db sid).
Proof.
  split_and!.
  - intros word. split.
    + intros Hst.
      destruct (no_session_of_game_dec (py "word_chain") db sid)
        as [H|(i & s & Hget & Hg)]; [exact H|].
      by destruct (play_word_chain_right_game_not_400 db sid i s word).
    + intros [Hnone|(i & s & Hget & Hg)]; unfold games.play_word_chain.
      * by rewrite play_word_chain_missing.
      * by rewrite (play_word_chain_other_game db sid i s).
  - intros answer. split.
    + intros Hst.
      destruct (no_session_of_game_dec (py "trivia") db sid)
        as [H|(i & s & Hget & Hg)]; [exact H|].
      by destruct (play_trivia_right_game_not_400 db sid i s answer).
    + intros [Hnone|(i & s & Hget & Hg)]; unfold games.play_trivia.
      * by rewrite play_trivia_missing.
      * by rewrite (play_trivia_other_game db sid i s).
  - intros guess. split.
    + intros Hst.
      destruct (no_session_of_game_dec (py "guess_number") db sid)
        as [H|(i & s & Hget & Hg)]; [exact H|].
      by destruct (play_guess_number_right_game_not_400 db sid i s guess).
    + intros [Hnone|(i & s & Hget & Hg)]; unfold games.play_guess_number.
      * by rewrite play_guess_number_missing.
      * by rewrite (play_guess_number_other_game db sid i s).
Qed.






(** ** What a move writes, and where *)

Lemma only_state_of_refl sid db : only_state_of sid db db.
Proof. split_and!; [done..|]. intros j s Hj. exists s. by split_and!. Qed.

Lemma only_state_of_commit sid db i s st :
  game_service.get_session db sid = Some (i, s) →
  only_state_of sid db (commit_session db i (GameSession.set_state s st)).
Proof.
  intros Hget. apply get_session_lookup in Hget as [Hi Hid].
  unfold commit_session. split; [reflexivity|]. split; simpl.
  { apply length_insert. }
  intros j t Hj. destruct (decide (j = i)) as [->|Hne].
  - rewrite Hi in Hj. injection Hj as <-.
    exists (GameSession.set_state s st).
    rewrite list_lookup_insert_eq by eauto using lookup_lt_Some.
    split_and!; try done.
  - exists t. rewrite list_lookup_insert_ne by done. by split_and!.
Qed.

(** A play function commits at most once, to the session it resolved. *)
Lemma play_word_chain_wrote db sid word :
  (game_service.play_word_chain db sid word).2 = db
  ∨ ∃ i s st,
      game_service.get_session db sid = Some (i, s)
      ∧ (game_service.play_word_chain db sid word).2
        = commit_session db i (GameSession.set_state s st).
Proof.
  unfold game_service.play_word_chain.
  destruct (game_service.get_session db sid) as [[i s]|] eqn:Hget;
    [|by left].
  case_bool_decide; [by left|].
  match goal with
  | |- (match ?b with _ => _ end).2 = _ ∨ _ =>
      destruct b as [[?|state]|?]; [by left| |by left]
  end.
  right. by exists i, s, state.
Qed.

Lemma play_trivia_wrote db sid answer :
  (game_service.play_trivia db sid answer).2 = db
  ∨ ∃ i s st,
      game_service.get_session db sid = Some (i, s)
      ∧ (game_service.play_trivia db sid answer).2
        = commit_session db i (GameSession.set_state s st).
Proof.
  unfold game_service.play_trivia.
  destruct (game_service.get_session db sid) as [[i s]|] eqn:Hget;
    [|by left].
  case_bool_decide; [by left|].
  match goal with
  | |- (match ?b with _ => _ end).2 = _ ∨ _ =>
      destruct b as [[?|[[[[state ?] ?] ?] ?]]|?]; [by left| |by left]
  end.
  right. by exists i, s, state.
Qed.

Lemma play_guess_number_wrote db sid guess :
  (game_service.play_guess_number db sid guess).2 = db
  ∨ ∃ i s st,
      game_service.get_session db sid = Some (i, s)
      ∧ (game_service.play_guess_number db sid guess).2
        = commit_session db i (GameSession.set_state s st).
Proof.
  unfold game_service.play_guess_number.
  destruct (game_service.get_session db sid) as [[i s]|] eqn:Hget;
    [|by left].
  case_bool_decide; [by left|].
  match goal with
  | |- (match ?b with _ => _ end).2 = _ ∨ _ =>
      destruct b as [[?|[[state ?] ?]]|?]; [by left| |by left]
  end.
  right. by exists i, s, state.
Qed.

(** X7. Whatever the move and its outcome, a play function writes at
    most the state of the session it was called on: it adds no record and
    no session, it never changes the key, the game, the owner or
    [is_active] of a session, and it leaves every session with another id
    as it was. *)
Theorem play_writes_only_state (db : DB) (sid : str) :
  (∀ word,
     only_state_of sid db (game_service.play_word_chain db sid word).2)
  ∧ (∀ answer,
     only_state_of sid db (game_service.play_trivia db sid answer).2)
  ∧ (∀ guess,
     only_state_of sid db (game_service.play_guess_number db sid guess).2).
Proof.
  split_and!.
  - intros word. destruct (play_word_chain_wrote db sid word)
      as [->|(i & s & st & Hget & ->)];
      [apply only_state_of_refl | by apply only_state_of_commit].
  - intros answer. destruct (play_trivia_wrote db sid answer)
      as [->|(i & s & st & Hget & ->)];
      [apply only_state_of_refl | by apply only_state_of_commit].
  - intros guess. destruct (play_guess_number_wrote db sid guess)
      as [->|(i & s & st & Hget & ->)];
      [apply only_state_of_refl | by apply only_state_of_commit].
Qed.

(** X8. The state that a play function returns is the state it stored:
    when the outcome of a move carries a "state", fetching the session
    again shows that very state. *)
Theorem returned_state_is_stored (db : DB) (sid : str) (result : dict)
    (v : json) :
  result !! py "state" = Some v →
  (∀ word,
     (game_service.play_word_chain db sid word).1 = Ok result →
     ∃ st s', v = JObj st
       ∧ game_service.get_session
           (game_service.play_word_chain db sid word).2 sid = Some s'
       ∧ GameSession.state s'.2 = st)
  ∧ (∀ answer,
     (game_service.play_trivia db sid answer).1 = Ok result →
     ∃ st s', v = JObj st
       ∧ game_service.get_session
           (game_service.play_trivia db sid answer).2 sid = Some s'
       ∧ GameSession.state s'.2 = st)
  ∧ (∀ guess,
     (game_service.play_guess_number db sid guess).1 = Ok result →
     ∃ st s', v = JObj st
       ∧ game_service.get_session
           (game_service.play_guess_number db sid guess).2 sid = Some s'
       ∧ GameSession.state s'.2 = st).
Proof.
  intros Hv. split_and!.
  - intros word. unfold game_service.play_word_chain.
    destruct (game_service.get_session db sid) as [[i s]|] eqn:Hget.
    2:{ simpl. intros [= <-]. vm_compute in Hv. discriminate Hv. }
    case_bool_decide.
    { simpl. intros [= <-]. vm_compute in Hv. discriminate Hv. }
    revert Hv. walk.
    all: simpl; intros Hv Hres; try discriminate Hres;
      injection Hres as <-.
    all: try (exfalso; vm_compute in Hv; discriminate Hv).
    repeat (rewrite lookup_insert_ne in Hv by literals).
    rewrite lookup_insert_eq in Hv. injection Hv as <-.
    eexists _, (i, GameSession.set_state s _).
    split; [reflexivity|]. split; [|reflexivity].
    apply (get_session_commit _ _ _ _ _ Hget).
    by apply get_session_lookup in Hget as [_ Hid].
  - intros answer. unfold game_service.play_trivia.
    destruct (game_service.get_session db sid) as [[i s]|] eqn:Hget.
    2:{ simpl. intros [= <-]. vm_compute in Hv. discriminate Hv. }
    case_bool_decide.
    { simpl. intros [= <-]. vm_compute in Hv. discriminate Hv. }
    revert Hv. walk.
    all: simpl; intros Hv Hres; try discriminate Hres;
      injection Hres as <-.
    all: try (exfalso; vm_compute in Hv; discriminate Hv).
    repeat (rewrite lookup_insert_ne in Hv by literals).
    rewrite lookup_insert_eq in Hv. injection Hv as <-.
    eexists _, (i, GameSession.set_state s _).
    split; [reflexivity|]. split; [|reflexivity].
    apply (get_session_commit _ _ _ _ _ Hget).
    by apply get_session_lookup in Hget as [_ Hid].
  - intros guess. unfold game_service.play_guess_number.
    destruct (game_service.get_session db sid) as [[i s]|] eqn:Hget.
    2:{ simpl. intros [= <-]. vm_compute in Hv. discriminate Hv. }
    case_bool_decide.
    { simpl. intros [= <-]. vm_compute in Hv. discriminate Hv. }
    revert Hv. walk.
    all: simpl; intros Hv Hres; try discriminate Hres.
    all: repeat match type of Hres with
                | context [bind ?r _] => destruct r; cbn [bind] in Hres
                end; try discriminate Hres.
    all: injection Hres as <-.
    all: try (exfalso; vm_compute in Hv; discriminate Hv).
    all: repeat (rewrite lookup_insert_ne in Hv by literals).
    all: rewrite lookup_insert_eq in Hv; injection Hv as <-.
    all: eexists _, (i, GameSession.set_state s _);
      (split; [reflexivity|]); split; [|reflexivity].
    all: apply (get_session_commit _ _ _ _ _ Hget).
    all: by apply get_session_lookup in Hget as [_ Hid].
Qed.

(** ** Ending a session *)

Lemma as_int_Ok v z : as_int v = Ok z → v = JInt z.
Proof. destruct v; simpl; intros [=]. by subst. Qed.

Lemma winner_of_gtb us cs :
  (if us >? cs then py "user"
   else if cs >? us then py "companion" else py "tie") = winner_of us cs.
Proof.
  unfold winner_of.
  destruct (us >? cs) eqn:H1, (cs >? us) eqn:H2;
    repeat case_decide; try lia; reflexivity.
Qed.

(** [end_session] on an existing session, NULL rounds included. *)
Lemma end_session_run uuid db sid i s us cs rounds :
  game_service.get_session db sid = Some (i, s) →
  score_of (GameSession.state s) (py "user_score") = JInt us →
  score_of (GameSession.state s) (py "companion_score") = JInt cs →
  as_column (rounds_played_of (GameSession.state s)) = Ok rounds →
  uuid ∉ GameRecord.id <$> game_records db →
  game_service.end_session uuid db sid
    = (Ok (Some (GameRecord.to_dict (record_of_session uuid s us cs rounds))),
       mkDB (<[i := GameSession.set_is_active s false]> (game_sessions db))
            (game_records db ++ [record_of_session uuid s us cs rounds])).
Proof.
  intros Hget Hus Hcs Hrounds Hfresh.
  unfold game_service.end_session. rewrite Hget.
  unfold GameSession.get_state.
  rewrite !dict_get_score, dict_get_rounds, Hus, Hcs, Hrounds.
  cbn [as_int bind]. unfold add_record. cbn [GameRecord.id].
  rewrite bool_decide_eq_false_2 by done. cbn [bind].
  unfold commit_session, record_of_session. cbn [game_sessions game_records].
  by rewrite winner_of_gtb.
Qed.

(** All that a successful [end_session] has read and written. *)
Lemma end_session_success uuid db sid result db' :
  game_service.end_session uuid db sid = (Ok (Some result), db') →
  ∃ i s us cs rounds,
    game_service.get_session db sid = Some (i, s)
    ∧ score_of (GameSession.state s) (py "user_score") = JInt us
    ∧ score_of (GameSession.state s) (py "companion_score") = JInt cs
    ∧ as_column (rounds_played_of (GameSession.state s)) = Ok rounds
    ∧ (uuid ∉ GameRecord.id <$> game_records db)
    ∧ result = GameRecord.to_dict (record_of_session uuid s us cs rounds)
    ∧ db' = mkDB (<[i := GameSession.set_is_active s false]>
                    (game_sessions db))
                 (game_records db ++ [record_of_session uuid s us cs rounds]).
Proof.
  unfold game_service.end_session.
  destruct (game_service.get_session db sid) as [[i s]|] eqn:Hget;
    [|intros [=]].
  unfold GameSession.get_state. rewrite !dict_get_score, dict_get_rounds.
  destruct (as_int (score_of _ (py "user_score"))) as [us|] eqn:Hus;
    cbn [bind]; [|intros [=]].
  destruct (as_int (score_of _ (py "companion_score"))) as [cs|] eqn:Hcs;
    cbn [bind]; [|intros [=]].
  destruct (as_column _) as [rounds|] eqn:Hrounds; cbn [bind]; [|intros [=]].
  unfold add_record. case_bool_decide as Hfresh; cbn [bind]; [intros [=]|].
  rewrite winner_of_gtb. intros [= <- <-].
  apply as_int_Ok in Hus, Hcs.
  exists i, s, us, cs, rounds. by split_and!.
Qed.

(** The dictionary of a record is never empty. *)
Lemma record_dict_truthy r : truthy (JObj (GameRecord.to_dict r)) = true.
Proof.
  unfold truthy.
  destruct (map_to_list (GameRecord.to_dict r)) as [|kv l] eqn:Hl;
    [|reflexivity].
  apply map_to_list_empty_iff in Hl. unfold GameRecord.to_dict in Hl.
  by apply insert_non_empty in Hl.
Qed.

(** X9. The end route answers 404 exactly when the session id does not
    resolve, and then nothing is written; on an existing session it
    answers 200 with the record, or 500 when the state or the record
    cannot be written, but never 404. *)
Theorem end_route_404_iff_unknown (uuid : str) (db : DB) (sid : str) :
  (status_of (games.end_session uuid db sid).1 = 404
   ↔ game_service.get_session db sid = None)
  ∧ (game_service.get_session db sid = None →
     games.end_session uuid db sid
       = (HTTPException 404 (JStr (py "Session not found")), db)).
Proof.
  assert (Hnone : game_service.get_session db sid = None →
            games.end_session uuid db sid
            = (HTTPException 404 (JStr (py "Session not found")), db)).
  { intros Hget. unfold games.end_session, game_service.end_session.
    by rewrite Hget. }
  split; [|exact Hnone]. split; [|by intros ->%Hnone].
  destruct (game_service.get_session db sid) as [[i s]|] eqn:Hget; [|done].
  unfold games.end_session.
  destruct (game_service.end_session uuid db sid) as [[[result|]|x] db']
    eqn:Hend.
  - apply end_session_success in Hend
      as (? & ? & ? & ? & ? & _ & _ & _ & _ & _ & -> & _).
    rewrite record_dict_truthy. simpl. lia.
  - exfalso. revert Hend. unfold game_service.end_session. rewrite Hget.
    repeat case_match; intros [=].
  - simpl. lia.
Qed.

(** X10. Ending a session twice is not idempotent.  After a successful
    end, a second end of the same session with a new record key succeeds
    again: it leaves the sessions as they are and adds a second record
    that differs from the first in its key only. *)
Theorem end_session_twice (u1 u2 : str) (db : DB) (sid : str)
    (result : dict) (db1 : DB) :
  game_service.end_session u1 db sid = (Ok (Some result), db1) →
  u2 ∉ GameRecord.id <$> game_records db1 →
  ∃ record,
    result = GameRecord.to_dict record
    ∧ game_records db1 = game_records db ++ [record]
    ∧ game_service.end_session u2 db1 sid
      = (Ok (Some (GameRecord.to_dict (with_id u2 record))),
         mkDB (game_sessions db1)
              (game_records db ++ [record; with_id u2 record])).
Proof.
  intros (i & s & us & cs & rounds & Hget & Hus & Hcs & Hrounds & Hfresh
          & -> & ->)%end_session_success Hfresh2.
  exists (record_of_session u1 s us cs rounds).
  split; [reflexivity|]. split; [reflexivity|].
  pose proof (get_session_lookup _ _ _ _ Hget) as [Hi Hid].
  set (ended := GameSession.set_is_active s false).
  set (db1 := mkDB _ _) in *.
  assert (Hget1 : game_service.get_session db1 sid = Some (i, ended))
    by exact (get_session_commit db sid i s ended Hget Hid).
  rewrite (end_session_run u2 db1 sid i ended us cs rounds
             Hget1 Hus Hcs Hrounds Hfresh2).
  unfold db1. cbn [game_sessions game_records].
  rewrite list_insert_insert_eq, <- app_assoc. reflexivity.
Qed.

(** ** Ended sessions in the statistics *)






(** ** Records and the sessions behind them *)

Lemma record_backed_kept db db' r :
  rows_kept db db' → record_backed db r → record_backed db' r.
Proof.
  intros Hkept (j & s & us & cs & Hj & Hsid & Hact & Hg & Hc & Hu & Hcs & Hw).
  destruct (Hkept j s Hj) as (s' & Hj' & Hid & Hg' & Hc' & Hact').
  specialize (Hact' Hact).
  exists j, s', us, cs. split_and!; try done; congruence.
Qed.

Lemma rows_kept_refl db : rows_kept db db.
Proof. intros j s Hj. exists s. by split_and!. Qed.

Lemma rows_kept_only_state sid db db' :
  only_state_of sid db db' → rows_kept db db'.
Proof.
  intros (_ & _ & Hrows) j s Hj.
  destruct (Hrows j s Hj) as (s' & Hj' & Hid & Hg & Hc & Ha & _).
  exists s'. split_and!; try done. congruence.
Qed.

Lemma rows_kept_app db s recs :
  rows_kept db (mkDB (game_sessions db ++ [s]) recs).
Proof.
  intros j t Hj. exists t. split_and!; try done.
  simpl. by apply lookup_app_l_Some.
Qed.

Lemma rows_kept_ended db i s recs :
  game_sessions db !! i = Some s →
  rows_kept db
    (mkDB (<[i := GameSession.set_is_active s false]> (game_sessions db))
          recs).
Proof.
  intros Hi j t Hj. simpl. destruct (decide (j = i)) as [->|Hne].
  - rewrite Hi in Hj. injection Hj as <-.
    exists (GameSession.set_is_active s false).
    rewrite list_lookup_insert_eq by eauto using lookup_lt_Some.
    by split_and!.
  - exists t. rewrite list_lookup_insert_ne by done. by split_and!.
Qed.

(** [end_session] succeeds or writes nothing. *)
Lemma end_session_or_nothing uuid db sid :
  (game_service.end_session uuid db sid).2 = db
  ∨ ∃ result db',
      game_service.end_session uuid db sid = (Ok (Some result), db').
Proof.
  unfold game_service.end_session.
  destruct (game_service.get_session db sid) as [[i s]|]; [|by left].
  destruct (as_int _) as [us|]; cbn [bind]; [|by left].
  destruct (as_int _) as [cs|]; cbn [bind]; [|by left].
  destruct (as_column _) as [rounds|]; cbn [bind]; [|by left].
  unfold add_record. case_bool_decide; cbn [bind]; [by left|].
  right. eauto.
Qed.

Lemma handle_keeps_records_backed db req :
  records_backed db → records_backed (handle db req).2.
Proof.
  intros Hok. destruct req as [e g c|u sid|sid w|sid a|sid n]; simpl.
  - unfold games.create_session.
    destruct (game_service.get_active_session db c g) as [[i s]|];
      [exact Hok|].
    unfold game_service.create_session, add_session.
    case_bool_decide; [exact Hok|]. simpl.
    eapply Forall_impl; [exact Hok|]. intros r.
    apply record_backed_kept, rows_kept_app.
  - rewrite games_end_session_writes.
    destruct (end_session_or_nothing u db sid)
      as [->|(result & db' & Hend)]; [exact Hok|].
    rewrite Hend. simpl.
    apply end_session_success in Hend
      as (i & s & us & cs & rounds & Hget & Hus & Hcs & Hrounds & Hfresh
          & -> & ->).
    pose proof (get_session_lookup _ _ _ _ Hget) as [Hi Hid].
    apply Forall_app. split.
    + eapply Forall_impl; [exact Hok|]. intros r.
      by apply record_backed_kept, rows_kept_ended.
    + apply Forall_singleton.
      exists i, (GameSession.set_is_active s false), us, cs. simpl.
      rewrite list_lookup_insert_eq by eauto using lookup_lt_Some.
      by split_and!.
  - rewrite games_play_word_chain_writes.
    destruct (play_word_chain_wrote db sid w)
      as [->|(i & s & st & Hget & ->)]; [exact Hok|].
    eapply Forall_impl; [exact Hok|]. intros r.
    eapply record_backed_kept, rows_kept_only_state.
    by apply only_state_of_commit.
  - rewrite games_play_trivia_writes.
    destruct (play_trivia_wrote db sid a)
      as [->|(i & s & st & Hget & ->)]; [exact Hok|].
    eapply Forall_impl; [exact Hok|]. intros r.
    eapply record_backed_kept, rows_kept_only_state.
    by apply only_state_of_commit.
  - rewrite games_play_guess_number_writes.
    destruct (play_guess_number_wrote db sid n)
      as [->|(i & s & st & Hget & ->)]; [exact Hok|].
    eapply Forall_impl; [exact Hok|]. intros r.
    eapply record_backed_kept, rows_kept_only_state.
    by apply only_state_of_commit.
Qed.

Lemma serve_keeps_records_backed reqs : ∀ db,
  records_backed db → records_backed (serve db reqs).
Proof.
  induction reqs as [|req reqs IH]; intros db Hok; [exact Hok|].
  unfold serve. simpl. apply IH. by apply handle_keeps_records_backed.
Qed.

(** X12. In every database that the server reaches from the empty one,
    each record names a session that exists and is ended, has the game and
    the owner of that session, carries two integer scores, and has the
    winner that these scores give: "user", "companion" or "tie". *)
Theorem records_are_backed (reqs : list request) (r : GameRecord.t) :
  r ∈ game_records (serve empty_db reqs) →
  record_backed (serve empty_db reqs) r.
Proof.
  intros Hr.
  assert (Hok : records_backed (serve empty_db reqs)).
  { apply serve_keeps_records_backed. constructor. }
  exact (proj1 (Forall_forall _ _) Hok r Hr).
Qed.

(** X13. In every database that the server reaches from the empty one,
    the statistics count as ties exactly the records whose winner is
    "tie": no record has a missing or a foreign winner. *)
Theorem reachable_ties_are_ties (reqs : list request) (c : str) :
  let records := records_of (serve empty_db reqs) c in
  let stats := (game_service.get_statistics (serve empty_db reqs) c).1 in
  Stats.ties stats = tally (won_by (py "tie")) records
  ∧ tally stray records = 0
  ∧ tally (λ r, GameRecord.winner r = None) records = 0.
Proof.
  intros records stats. subst stats. rewrite get_statistics_eq.
  fold records. unfold statistics_of. simpl.
  assert (Hok : records_backed (serve empty_db reqs)).
  { apply serve_keeps_records_backed. constructor. }
  assert (Hrec : ∀ r, r ∈ records →
            ∃ us cs, GameRecord.winner r = Some (winner_of us cs)).
  { intros r Hr. apply list_elem_of_filter in Hr as [_ Hr].
    destruct (proj1 (Forall_forall _ _) Hok r Hr)
      as (j & s & us & cs & _ & _ & _ & _ & _ & _ & _ & Hw). eauto. }
  assert (Hstray : tally stray records = 0).
  { apply tally_zero. intros r Hr [[Hu Hc] Ht].
    destruct (Hrec r Hr) as (us & cs & Hw).
    unfold won_by in *. rewrite Hw in *. unfold winner_of in *.
    repeat case_decide; tauto. }
  split_and!; [lia | exact Hstray |].
  apply tally_zero. intros r Hr Hnone.
  destruct (Hrec r Hr) as (us & cs & Hw). congruence.
Qed.

(** ** Keys, and fetching what was started *)

Lemma ids_kept db db' :
  rows_kept db db' →
  length (game_sessions db') = length (game_sessions db) →
  GameSession.id <$> game_sessions db' = GameSession.id <$> game_sessions db.
Proof.
  intros Hkept Hlen. apply list_eq. intros j. rewrite !list_lookup_fmap.
  destruct (game_sessions db !! j) as [s|] eqn:Hj.
  - destruct (Hkept j s Hj) as (s' & -> & Hid & _). simpl. by rewrite Hid.
  - apply lookup_ge_None in Hj.
    rewrite (proj2 (lookup_ge_None (game_sessions db') j)) by lia. done.
Qed.

Lemma handle_keeps_unique_ids db req :
  unique_ids db → unique_ids (handle db req).2.
Proof.
  intros [Hs Hr]. destruct req as [e g c|u sid|sid w|sid a|sid n]; simpl.
  - unfold games.create_session.
    destruct (game_service.get_active_session db c g) as [[i s]|];
      [by split|].
    unfold game_service.create_session, add_session.
    case_bool_decide as Hin; [by split|]. split; [|exact Hr]. simpl.
    rewrite fmap_app. apply NoDup_app. split_and!; [exact Hs| |].
    + intros x Hx Hx'. apply list_elem_of_singleton in Hx'. by subst.
    + apply NoDup_singleton.
  - rewrite games_end_session_writes.
    destruct (end_session_or_nothing u db sid)
      as [->|(result & db' & Hend)]; [by split|].
    rewrite Hend. simpl.
    apply end_session_success in Hend
      as (i & s & us & cs & rounds & Hget & _ & _ & _ & Hfresh & -> & ->).
    pose proof (get_session_lookup _ _ _ _ Hget) as [Hi _].
    split; simpl.
    + pose proof (ids_kept db (mkDB (<[i:=GameSession.set_is_active s false]>
                                       (game_sessions db)) [])
                    (rows_kept_ended db i s [] Hi)) as Hids.
      simpl in Hids. rewrite Hids; [exact Hs | apply length_insert].
    + rewrite fmap_app. apply NoDup_app. split_and!; [exact Hr| |].
      * intros x Hx Hx'. apply list_elem_of_singleton in Hx'. by subst.
      * apply NoDup_singleton.
  - rewrite games_play_word_chain_writes.
    destruct (play_word_chain_wrote db sid w)
      as [->|(i & s & st & Hget & ->)]; [by split|].
    pose proof (only_state_of_commit sid db i s st Hget) as Honly.
    split; [|exact Hr].
    rewrite (ids_kept db _ (rows_kept_only_state _ _ _ Honly)); [done|].
    by destruct Honly as (_ & ? & _).
  - rewrite games_play_trivia_writes.
    destruct (play_trivia_wrote db sid a)
      as [->|(i & s & st & Hget & ->)]; [by split|].
    pose proof (only_state_of_commit sid db i s st Hget) as Honly.
    split; [|exact Hr].
    rewrite (ids_kept db _ (rows_kept_only_state _ _ _ Honly)); [done|].
    by destruct Honly as (_ & ? & _).
  - rewrite games_play_guess_number_writes.
    destruct (play_guess_number_wrote db sid n)
      as [->|(i & s & st & Hget & ->)]; [by split|].
    pose proof (only_state_of_commit sid db i s st Hget) as Honly.
    split; [|exact Hr].
    rewrite (ids_kept db _ (rows_kept_only_state _ _ _ Honly)); [done|].
    by destruct Honly as (_ & ? & _).
Qed.

Lemma serve_keeps_unique_ids reqs : ∀ db,
  unique_ids db → unique_ids (serve db reqs).
Proof.
  induction reqs as [|req reqs IH]; intros db Hok; [exact Hok|].
  unfold serve. simpl. apply IH. by apply handle_keeps_unique_ids.
Qed.

Lemma unique_ids_empty : unique_ids empty_db.
Proof. split; constructor. Qed.

(** With unique keys a row is found under its key. *)
Lemma get_session_of_row db i s :
  NoDup (GameSession.id <$> game_sessions db) →
  game_sessions db !! i = Some s →
  game_service.get_session db (GameSession.id s) = Some (i, s).
Proof.
  intros Hnd Hi. unfold game_service.get_session.
  apply list_find_Some. split_and!; [exact Hi|reflexivity|].
  intros j t Hj Hlt Hid.
  assert (j = i); [|lia].
  apply (NoDup_lookup _ j i (GameSession.id s) Hnd);
    rewrite list_lookup_fmap; [rewrite Hj|rewrite Hi]; simpl; congruence.
Qed.

(** A new row is found under its new key. *)
Lemma get_session_new db s recs :
  GameSession.id s ∉ GameSession.id <$> game_sessions db →
  game_service.get_session (mkDB (game_sessions db ++ [s]) recs)
    (GameSession.id s)
  = Some (length (game_sessions db), s).
Proof.
  intros Hfresh. unfold game_service.get_session. simpl.
  rewrite list_find_app_r.
  - simpl. rewrite decide_True by done. simpl. do 2 f_equal; lia.
  - apply list_find_None. apply Forall_forall. intros t Ht Hid.
    apply Hfresh. apply list_elem_of_fmap. eauto.
Qed.

(** X14. Start and fetch.  In every database that the server reaches
    from the empty one, the session that a successful start returns, the
    one found active or the one created, is the session that the fetch
    route shows under the id returned, with the same body. *)
Theorem started_session_is_fetched (reqs : list request) (e : entropy)
    (g c : str) (body : json) (db' : DB) :
  games.create_session e (serve empty_db reqs) g c
    = (Response 200 body, db') →
  ∃ s, body = JObj (GameSession.to_dict s)
       ∧ GameSession.game_id s = g
       ∧ GameSession.companion_id s = c
       ∧ GameSession.is_active s = true
       ∧ games.get_session db' (GameSession.id s) = (Response 200 body, db').
Proof.
  pose proof (serve_keeps_unique_ids reqs empty_db unique_ids_empty)
    as [Hnd _].
  set (db := serve empty_db reqs) in *.
  unfold games.create_session.
  destruct (game_service.get_active_session db c g) as [[i s]|] eqn:Hact.
  - intros [= <- <-]. exists s.
    unfold game_service.get_active_session in Hact.
    apply list_find_Some in Hact as (Hi & (Hc & Hg & Ha) & _).
    split_and!; try done.
    unfold games.get_session.
    by rewrite (get_session_of_row db i s Hnd Hi).
  - unfold game_service.create_session, add_session.
    case_bool_decide as Hin; [intros [=]|].
    intros [= <- <-]. eexists. split; [reflexivity|].
    split_and!; try reflexivity.
    unfold games.get_session.
    by rewrite (get_session_new db _ _ Hin).
Qed.

(** X15. Start after end.  When the active session of an owner and a
    game is ended, no session is active for them any more, and the next
    start, drawing a new key, creates a new active session in the initial
    state of the game and appends it. *)
Theorem start_after_end (u : str) (e : entropy) (db : DB) (g c : str)
    (i : nat) (s : GameSession.t) (result : dict) (db1 : DB) :
  one_active_per_pair db →
  game_service.get_active_session db c g = Some (i, s) →
  game_service.get_session db (GameSession.id s) = Some (i, s) →
  game_service.end_session u db (GameSession.id s)
    = (Ok (Some result), db1) →
  uuid4 e ∉ GameSession.id <$> game_sessions db1 →
  game_service.get_active_session db1 c g = None
  ∧ games.create_session e db1 g c
    = (Response 200 (JObj (GameSession.to_dict (new_session e g c))),
       mkDB (game_sessions db1 ++ [new_session e g c]) (game_records db1)).
Proof.
  intros Hone Hact Hget Hend Hfresh.
  apply end_session_success in Hend
    as (i' & s' & us & cs & rounds & Hget' & _ & _ & _ & _ & -> & ->).
  rewrite Hget in Hget'. injection Hget' as <- <-.
  unfold game_service.get_active_session in Hact.
  apply list_find_Some in Hact as (Hi & (Hc & Hg & Ha) & _).
  assert (Hnone : game_service.get_active_session
                    (mkDB (<[i:=GameSession.set_is_active s false]>
                             (game_sessions db))
                          (game_records db
                           ++ [record_of_session u s us cs rounds])) c g
                  = None).
  { unfold game_service.get_active_session. simpl.
    apply list_find_None, Forall_lookup. intros j t Hj (Hc' & Hg' & Ha').
    apply list_lookup_insert_Some in Hj as [(-> & <- & _)|[Hne Hj]].
    - discriminate Ha'.
    - apply Hne. symmetry. apply (Hone j i t s); congruence. }
  split; [exact Hnone|].
  unfold games.create_session. rewrite Hnone.
  unfold game_service.create_session, add_session. simpl in *.
  by rewrite bool_decide_eq_false_2.
Qed.

(** ** The catalogue *)

Lemma game_info_unknown g :
  g ≠ py "word_chain" → g ≠ py "trivia" → g ≠ py "guess_number" →
  GameService.get_game_info g = None.
Proof.
  intros H1 H2 H3. unfold GameService.get_game_info,
    GameService.AVAILABLE_GAMES, GameService.game. simpl.
  by rewrite !decide_False by done.
Qed.

Lemma initial_state_unknown e g :
  g ≠ py "word_chain" → g ≠ py "trivia" → g ≠ py "guess_number" →
  game_service._get_initial_state e g = ∅.
Proof.
  intros H1 H2 H3. unfold game_service._get_initial_state.
  by rewrite !bool_decide_eq_false_2 by done.
Qed.

Lemma insert_truthy (k : str) (v : json) (m : dict) :
  truthy (JObj (<[k := v]> m)) = true.
Proof.
  unfold truthy.
  destruct (map_to_list (<[k := v]> m)) as [|kv l] eqn:Hl; [|reflexivity].
  apply map_to_list_empty_iff in Hl. by apply insert_non_empty in Hl.
Qed.

Lemma game_info_known g :
  g ∈ [py "word_chain"; py "trivia"; py "guess_number"] →
  ∃ info, GameService.get_game_info g = Some info
          ∧ info !! py "id" = Some (JStr g)
          ∧ info ∈ GameService.get_available_games
          ∧ truthy (JObj info) = true.
Proof.
  intros Hin. rewrite !elem_of_cons, elem_of_nil in Hin.
  unfold GameService.get_game_info, GameService.get_available_games,
    GameService.AVAILABLE_GAMES, GameService.game.
  destruct Hin as [->|[->|[->|[]]]].
  all: eexists; split; [reflexivity|].
  all: split; [apply lookup_insert_eq|]; split; [|apply insert_truthy].
  - apply list_elem_of_here.
  - apply list_elem_of_further, list_elem_of_here.
  - do 2 apply list_elem_of_further. apply list_elem_of_here.
Qed.

Lemma initial_state_known e g :
  g ∈ [py "word_chain"; py "trivia"; py "guess_number"] →
  game_service._get_initial_state e g ≠ ∅.
Proof.
  intros Hin. rewrite !elem_of_cons, elem_of_nil in Hin.
  unfold game_service._get_initial_state.
  destruct Hin as [->|[->|[->|[]]]].
  - rewrite bool_decide_eq_true_2 by done. apply insert_non_empty.
  - rewrite bool_decide_eq_false_2 by literals.
    rewrite bool_decide_eq_true_2 by done. apply insert_non_empty.
  - rewrite !bool_decide_eq_false_2 by literals.
    rewrite bool_decide_eq_true_2 by done. apply insert_non_empty.
Qed.

Lemma available_game_known info :
  info ∈ GameService.get_available_games →
  ∃ g, info !! py "id" = Some (JStr g)
       ∧ GameService.get_game_info g = Some info.
Proof.
  unfold GameService.get_available_games, GameService.AVAILABLE_GAMES.
  rewrite !fmap_cons, fmap_nil, !elem_of_cons, elem_of_nil.
  intros [->|[->|[->|[]]]]; eexists;
    (split; [apply lookup_insert_eq | reflexivity]).
Qed.

(** X16. The catalogue and the initial states cover the same three
    games.  [get_game_info] knows a game id exactly when it is
    "word_chain", "trivia" or "guess_number"; the entry it returns carries
    that id and is one of [get_available_games], each of which is found
    again under its id; the route answers 404 for every other id; and
    [_get_initial_state] is the empty dictionary exactly for the ids that
    the catalogue does not know. *)
Theorem catalogue_covers_initial_states (e : entropy) (db : DB) (g : str) :
  (GameService.get_game_info g = None
   ↔ g ∉ [py "word_chain"; py "trivia"; py "guess_number"])
  ∧ (∀ info, GameService.get_game_info g = Some info →
       info !! py "id" = Some (JStr g)
       ∧ info ∈ GameService.get_available_games
       ∧ games_routes.get_game_info db g = (Response 200 (JObj info), db))
  ∧ (GameService.get_game_info g = None →
       games_routes.get_game_info db g
       = (HTTPException 404 (JStr (py "Game not found")), db))
  ∧ (game_service._get_initial_state e g = ∅
     ↔ GameService.get_game_info g = None)
  ∧ (∀ info, info ∈ GameService.get_available_games →
       ∃ g', info !! py "id" = Some (JStr g')
             ∧ GameService.get_game_info g' = Some info).
Proof.
  destruct (decide (g ∈ [py "word_chain"; py "trivia"; py "guess_number"]))
    as [Hin|Hout].
  - destruct (game_info_known g Hin) as (info & Hinfo & Hid & Hav & Htrue).
    pose proof (initial_state_known e g Hin) as Hinit.
    unfold games_routes.get_game_info. rewrite Hinfo, Htrue.
    split_and!.
    + split; [discriminate|done].
    + by intros ? [= <-].
    + discriminate.
    + split; [done|discriminate].
    + exact available_game_known.
  - assert (GameService.get_game_info g = None) as Hnone.
    { rewrite !elem_of_cons, elem_of_nil in Hout.
      apply game_info_unknown; intros ->; tauto. }
    assert (game_service._get_initial_state e g = ∅) as Hinit.
    { rewrite !elem_of_cons, elem_of_nil in Hout.
      apply initial_state_unknown; intros ->; tauto. }
    unfold games_routes.get_game_info. rewrite Hnone, Hinit.
    split_and!; [done|discriminate|done|done|exact available_game_known].
Qed.


(** ** The active sessions of an owner *)

Lemma active_games_distinct (c : str) (l : list GameSession.t) :
  (∀ i j s1 s2, l !! i = Some s1 → l !! j = Some s2 →
     GameSession.is_active s1 = true → GameSession.is_active s2 = true →
     GameSession.companion_id s1 = GameSession.companion_id s2 →
     GameSession.game_id s1 = GameSession.game_id s2 → i = j) →
  NoDup (GameSession.game_id <$>
           filter (λ s, GameSession.companion_id s = c
                        ∧ GameSession.is_active s = true) l).
Proof.
  induction l as [|x l IH]; intros Hone; [constructor|].
  assert (Htail : NoDup (GameSession.game_id <$>
                    filter (λ s, GameSession.companion_id s = c
                                 ∧ GameSession.is_active s = true) l)).
  { apply IH. intros i j s1 s2 Hi Hj A1 A2 C G.
    assert (S i = S j) by (apply (Hone (S i) (S j) s1 s2); done). lia. }
  rewrite filter_cons. case_decide as Hx; [|exact Htail].
  rewrite fmap_cons. apply NoDup_cons. split; [|exact Htail].
  intros (y & Hg & Hy)%list_elem_of_fmap.
  apply list_elem_of_filter in Hy as [[Hc Ha] Hy].
  apply list_elem_of_lookup in Hy as [k Hk].
  destruct Hx as [Hcx Hax].
  assert (0%nat = S k); [|lia].
  apply (Hone 0%nat (S k) x y); try done; congruence.
Qed.

(** X18. In every database that the server reaches from the empty one,
    the route that lists the active sessions of an owner returns exactly
    the sessions of that owner that are active, and no two of them are of
    the same game. *)
Theorem active_sessions_one_per_game (reqs : list request) (c : str) :
  ∃ sessions,
    games_routes.get_active_sessions (serve empty_db reqs) c
      = (Response 200 (JList ((λ s, JObj (GameSession.to_dict s))
                                <$> sessions)),
         serve empty_db reqs)
    ∧ (∀ s, s ∈ sessions
            ↔ s ∈ game_sessions (serve empty_db reqs)
              ∧ GameSession.companion_id s = c
              ∧ GameSession.is_active s = true)
    ∧ NoDup (GameSession.game_id <$> sessions).
Proof.
  eexists. split; [reflexivity|]. split.
  - intros s. rewrite list_elem_of_filter. tauto.
  - apply active_games_distinct.
    exact (serve_keeps_one_active reqs empty_db one_active_empty).
Qed.

(** ** Writing a state *)


(** ** The statistics by game *)

Lemma tally_le (P Q : GameRecord.t → Prop) `{!∀ r, Decision (P r)}
    `{!∀ r, Decision (Q r)} l :
  (∀ r, P r → Q r) → tally P l ≤ tally Q l.
Proof.
  intros Himp. induction l as [|r l IH]; [done|].
  rewrite !tally_cons. specialize (Himp r).
  repeat case_decide; try lia. tauto.
Qed.

Lemma tally_le_length (P : GameRecord.t → Prop) `{!∀ r, Decision (P r)} l :
  tally P l ≤ Z.of_nat (length l).
Proof. unfold tally. pose proof (length_filter P l). lia. Qed.

(** X20. The entries of [games_by_type].  A game has an entry exactly
    when the owner has a record of it; the entry then counts at least one
    and at most [total_games] games played, and its wins are between 0
    and the games played, and at most the wins of the owner. *)
Theorem games_by_type_entries (db : DB) (c g : str) :
  let stats := (game_service.get_statistics db c).1 in
  (Stats.games_by_type stats !! g = None
   ↔ ∀ r, r ∈ records_of db c → GameRecord.game_id r ≠ g)
  ∧ (∀ entry, Stats.games_by_type stats !! g = Some entry →
       1 ≤ Stats.played entry
       ∧ Stats.played entry ≤ Stats.total_games stats
       ∧ 0 ≤ Stats.type_wins entry
       ∧ Stats.type_wins entry ≤ Stats.played entry
       ∧ Stats.type_wins entry ≤ Stats.wins stats).
Proof.
  intros stats. subst stats. rewrite get_statistics_eq. cbn [fst].
  rewrite statistics_of_by_type.
  set (l := records_of db c).
  pose proof (tally_nonneg (of_game g) l) as Hp.
  pose proof (tally_nonneg (user_win_of g) l) as Hw.
  pose proof (tally_le_length (of_game g) l) as Hpl.
  assert (Hwp : tally (user_win_of g) l ≤ tally (of_game g) l)
    by (apply tally_le; by intros r [? _]).
  assert (Hww : tally (user_win_of g) l ≤ tally (won_by (py "user")) l)
    by (apply tally_le; by intros r [_ ?]).
  split.
  - case_decide as Hz.
    + split; [|done]. intros _ r Hr Hg.
      by apply (proj1 (tally_zero _ _) Hz r Hr).
    + split; [done|]. intros Hno. exfalso. apply Hz.
      apply tally_zero. intros r Hr Hg. by apply (Hno r Hr).
  - intros entry. case_decide as Hz; [done|]. intros [= <-].
    unfold statistics_of. simpl. split_and!; lia.
Qed.

(** ** Nothing is taken back *)

Lemma rows_kept_trans db1 db2 db3 :
  rows_kept db1 db2 → rows_kept db2 db3 → rows_kept db1 db3.
Proof.
  intros H12 H23 j s Hj.
  destruct (H12 j s Hj) as (s2 & Hj2 & Hid2 & Hg2 & Hc2 & Ha2).
  destruct (H23 j s2 Hj2) as (s3 & Hj3 & Hid3 & Hg3 & Hc3 & Ha3).
  exists s3. split_and!; try done; try congruence. auto.
Qed.

Lemma handle_keeps_history db req :
  rows_kept db (handle db req).2
  ∧ game_records db `prefix_of` game_records (handle db req).2.
Proof.
  destruct req as [e g c|u sid|sid w|sid a|sid n]; simpl.
  - unfold games.create_session.
    destruct (game_service.get_active_session db c g) as [[i s]|];
      [split; [apply rows_kept_refl|done]|].
    unfold game_service.create_session, add_session.
    case_bool_decide; [split; [apply rows_kept_refl|done]|]. simpl.
    split; [apply rows_kept_app|done].
  - rewrite games_end_session_writes.
    destruct (end_session_or_nothing u db sid)
      as [->|(result & db' & Hend)]; [split; [apply rows_kept_refl|done]|].
    rewrite Hend. simpl.
    apply end_session_success in Hend
      as (i & s & us & cs & rounds & Hget & _ & _ & _ & _ & -> & ->).
    pose proof (get_session_lookup _ _ _ _ Hget) as [Hi _].
    split; [by apply rows_kept_ended | by apply prefix_app_r].
  - rewrite games_play_word_chain_writes.
    destruct (play_word_chain_wrote db sid w)
      as [->|(i & s & st & Hget & ->)]; [split; [apply rows_kept_refl|done]|].
    split; [|done].
    eapply rows_kept_only_state. by apply only_state_of_commit.
  - rewrite games_play_trivia_writes.
    destruct (play_trivia_wrote db sid a)
      as [->|(i & s & st & Hget & ->)]; [split; [apply rows_kept_refl|done]|].
    split; [|done].
    eapply rows_kept_only_state. by apply only_state_of_commit.
  - rewrite games_play_guess_number_writes.
    destruct (play_guess_number_wrote db sid n)
      as [->|(i & s & st & Hget & ->)]; [split; [apply rows_kept_refl|done]|].
    split; [|done].
    eapply rows_kept_only_state. by apply only_state_of_commit.
Qed.

(** X21. Whatever requests the server handles, nothing is taken back:
    every session stays in the table with its key, game and owner, an
    ended session is never active again, and the records that were there
    stay as they are, new ones being added after them. *)
Theorem history_is_kept (reqs : list request) (db : DB) :
  rows_kept db (serve db reqs)
  ∧ game_records db `prefix_of` game_records (serve db reqs).
Proof.
  revert db. induction reqs as [|req reqs IH]; intros db.
  - split; [apply rows_kept_refl | done].
  - destruct (handle_keeps_history db req) as [Hrows Hrecs].
    destruct (IH (handle db req).2) as [Hrows' Hrecs'].
    unfold serve in *. simpl. split.
    + by eapply rows_kept_trans.
    + by etransitivity.
Qed.

(** ** The theorems at work on the worked sessions *)

Ltac computed := vm_compute; reflexivity.

(** The third guess of the worked session hits 42 and scores 7 - 3 + 1. *)
Lemma guess_number_move_witness :
  game_service.play_guess_number db_gn (py "s-gn") 42
    = (Ok (<[py "guess" := JInt 42]>
           (<[py "hint" := JStr (py "correct")]>
           (<[py "finished" := JBool true]>
           (<[py "won" := JBool true]>
           (<[py "target" := JInt 42]>
           (<[py "state" := JObj gn_state_won]> ∅)))))),
       db_gn_won).
Proof.
  etransitivity.
  - apply (guess_number_move db_gn (py "s-gn") 0
             (gn_session (gn_state 11 49 [10; 50] false))
             42 [JInt 10; JInt 50] 7 11 49 42); computed.
  - computed.
Defined.




(** The finished worked sessions take no further move. *)
Lemma finished_game_takes_no_move_witness :
  game_service.play_trivia db_tr_done (py "s-tr") pacific
    = (Ok (<[py "error" := JStr (py "No more questions")]>
           (<[py "finished" := JBool true]> ∅)), db_tr_done)
  ∧ game_service.play_guess_number db_gn_won (py "s-gn") 42
    = (Ok (<[py "error" := JStr (py "Game already finished")]>
           (<[py "finished" := JBool true]> ∅)), db_gn_won).
Proof.
  destruct finished_game_takes_no_move as [Htrivia Hguess]. split.
  - apply (Htrivia db_tr_done (py "s-tr") 0%nat
             (tr_session
                (tr_state [pacific; py "?"; yangtze; py "?"; py "H2O"] 3))
             game_service.TRIVIA_QUESTIONS 5); try computed.
    simpl. lia.
  - apply (Hguess db_gn_won (py "s-gn") 0%nat (gn_session gn_state_won)
             [JInt 10; JInt 50; JInt 42] 7 true); try computed.
    by left.
Defined.

(** The worked word_chain session, ended and fetched again. *)
Lemma ended_session_inactive_and_plays_as_before_witness :
  game_service.end_session (py "r-1") db_wc (py "s-wc")
    = (Ok (Some (GameRecord.to_dict record_wc)), db_wc_ended)
  ∧ games.get_session db_wc_ended (py "s-wc")
    = (Response 200 (JObj (GameSession.to_dict (wc_session false wc_state0))),
       db_wc_ended)
  ∧ (∀ word,
       (game_service.play_word_chain db_wc_ended (py "s-wc") word).1
         = (game_service.play_word_chain db_wc (py "s-wc") word).1)
  ∧ answers db_wc_ended
      [PostWordChain (py "s-wc") owl; PostWordChain (py "s-wc") wild_idea]
    = answers db_wc
        [PostWordChain (py "s-wc") owl; PostWordChain (py "s-wc") wild_idea].
Proof.
  assert (Hend : game_service.end_session (py "r-1") db_wc (py "s-wc")
                 = (Ok (Some (GameRecord.to_dict record_wc)), db_wc_ended))
    by computed.
  destruct (ended_session_inactive_and_plays_as_before
              (py "r-1") db_wc (py "s-wc") (GameRecord.to_dict record_wc)
              db_wc_ended Hend) as (_ & Hword & _ & _ & Hplays).
  split_and!; [exact Hend | computed | exact Hword |].
  apply Hplays. by repeat constructor.
Defined.

(** A session id that does not resolve and a session of another game,
    at the three play endpoints of the worked word_chain database. *)
Lemma play_on_invalid_session_is_400_witness :
  games.play_word_chain db_wc (py "s-none") owl
    = (HTTPException 400 (JStr (py "Invalid session")), db_wc)
  ∧ games.play_trivia db_wc (py "s-wc") pacific
    = (HTTPException 400 (JStr (py "Invalid session")), db_wc)
  ∧ games.play_guess_number db_wc (py "s-wc") 42
    = (HTTPException 400 (JStr (py "Invalid session")), db_wc).
Proof.
  destruct (play_on_invalid_session_is_400 db_wc (py "s-none"))
    as (Hword & _ & _).
  destruct (play_on_invalid_session_is_400 db_wc (py "s-wc"))
    as (_ & Htrivia & Hguess).
  assert (Hother : ∀ game, py "word_chain" ≠ game →
            no_session_of_game game db_wc (py "s-wc")).
  { intros game Hne. right.
    exists 0%nat, (wc_session true wc_state0). split; [reflexivity|].
    exact Hne. }
  split_and!.
  - apply Hword. left. reflexivity.
  - apply Htrivia, Hother. literals.
  - apply Hguess, Hother. literals.
Defined.


(** ** Where the specification and the code part *)

(** C1 as stated fails.  The worked word_chain session is ended, which
    succeeds and leaves it inactive; the owl is then played against it and
    is accepted: the outcome is valid, without any error, the endpoint
    answers 200, and the move is written to the ended session. *)
Lemma ended_session_accepts_move :
  game_service.end_session (py "r-1") db_wc (py "s-wc")
    = (Ok (Some (GameRecord.to_dict record_wc)), db_wc_ended)
  ∧ (GameSession.is_active <$>
       (snd <$> game_service.get_session db_wc_ended (py "s-wc")))
    = Some false
  ∧ game_service.play_word_chain db_wc_ended (py "s-wc") owl
    = (Ok (<[py "valid" := JBool true]>
           (<[py "word" := JStr owl]>
           (<[py "state" :=
                JObj (wc_state (Some owl) [owl] 1 "companion")]> ∅))),
       db_wc_ended_played)
  ∧ games.play_word_chain db_wc_ended (py "s-wc") owl
    = (Response 200
         (JObj (<[py "valid" := JBool true]>
               (<[py "word" := JStr owl]>
               (<[py "state" :=
                    JObj (wc_state (Some owl) [owl] 1 "companion")]> ∅)))),
       db_wc_ended_played).
Proof. split_and!; computed. Qed.

(** C2 as stated fails.  No session has the id "s-none", and the
    word_chain endpoint answers it with 400, not 404; the trivia endpoint
    gives that very response both for the missing session and for the
    existing word_chain session. *)
Lemma missing_session_is_400_like_wrong_game :
  game_service.get_session db_wc (py "s-none") = None
  ∧ status_of (games.play_word_chain db_wc (py "s-none") owl).1 = 400
  ∧ status_of (games.play_word_chain db_wc (py "s-none") owl).1 ≠ 404
  ∧ (∃ i session,
       game_service.get_session db_wc (py "s-wc") = Some (i, session)
       ∧ GameSession.game_id session = py "word_chain")
  ∧ games.play_trivia db_wc (py "s-none") pacific
    = games.play_trivia db_wc (py "s-wc") pacific.
Proof.
  split_and!; try computed.
  - intros E. vm_compute in E. discriminate E.
  - exists 0%nat, (wc_session true wc_state0). split; reflexivity.
Qed.

(** ** The examples of section 8 of the specification *)

Example statistics_of_three :
  (game_service.get_statistics db_three comp).1
    = Stats.mk 3 5 0 2 0 1
        (<[py "trivia" := Stats.mkByType 2 1]>
        (<[py "word_chain" := Stats.mkByType 1 1]> ∅)).
Proof. computed. Qed.

Example statistics_null_winner :
  (game_service.get_statistics db_null_winner comp).1
    = Stats.mk 2 3 0 1 0 1 (<[py "trivia" := Stats.mkByType 2 1]> ∅).
Proof. computed. Qed.

Example statistics_of_nobody :
  game_service.get_statistics db_three (py "c-2")
    = (Stats.mk 0 0 0 0 0 0 ∅, db_three).
Proof. computed. Qed.

Example seventh_guess_scores_one :
  (game_service.play_guess_number
     (mkDB [gn_session (gn_state 41 43 [10; 50; 20; 45; 40; 44] false)] [])
     (py "s-gn") 42).1
    = Ok (<[py "guess" := JInt 42]>
          (<[py "hint" := JStr (py "correct")]>
          (<[py "finished" := JBool true]>
          (<[py "won" := JBool true]>
          (<[py "target" := JInt 42]>
          (<[py "state" :=
               JObj (<[py "user_score" := JInt 1]>
                       (gn_state 41 43 [10; 50; 20; 45; 40; 44; 42] true))]>
             ∅)))))).
Proof. computed. Qed.

Example guess_thirty_narrows :
  (game_service.play_guess_number
     (mkDB [gn_session (gn_state 1 100 [] false)] []) (py "s-gn") 30).1
    = Ok (<[py "guess" := JInt 30]>
          (<[py "hint" := JStr (py "higher")]>
          (<[py "finished" := JBool false]>
          (<[py "won" := JBool false]>
          (<[py "target" := JNull]>
          (<[py "state" := JObj (gn_state 31 100 [30] false)]> ∅)))))).
Proof. computed. Qed.

Example tie_and_user_win :
  winner_of 5 5 = py "tie" ∧ winner_of 5 2 = py "user"
  ∧ winner_of 2 5 = py "companion".
Proof. split_and!; reflexivity. Qed.

(** ** The further properties at work on the worked sessions *)

Lemma draw_fair (u : string) (g c : str) : fair (PostSession (draw u) g c).
Proof.
  split; [split; reflexivity || (vm_compute; discriminate)|].
  apply Forall_forall. auto.
Qed.

Lemma reqs_owl_fair : Forall fair reqs_owl.
Proof.
  constructor; [apply draw_fair|].
  repeat (constructor; [exact I|]). constructor.
Qed.

Lemma reqs_gn_fair : Forall fair reqs_gn.
Proof.
  constructor; [apply draw_fair|].
  repeat (constructor; [exact I|]). constructor.
Qed.

Lemma reqs_tr_fair : Forall fair reqs_tr.
Proof.
  constructor; [apply draw_fair|].
  repeat (constructor; [exact I|]). constructor.
Qed.

Lemma word_chain_sessions_sound_witness :
  word_chain_ok (wc_state (Some owl) [owl] 1 "companion").
Proof.
  apply (word_chain_sessions_sound reqs_owl 0
           (wc_session true (wc_state (Some owl) [owl] 1 "companion")));
    [apply reqs_owl_fair | computed | reflexivity].
Defined.

Lemma trivia_sessions_sound_witness :
  trivia_ok (tr_state [pacific; py "?"] 1).
Proof.
  apply (trivia_sessions_sound reqs_tr 0
           (tr_session (tr_state [pacific; py "?"] 1)));
    [apply reqs_tr_fair | computed | reflexivity].
Defined.

Lemma guess_number_sessions_sound_witness :
  guess_number_ok (gn_state 11 49 [10; 50] false).
Proof.
  apply (guess_number_sessions_sound reqs_gn 0
           (gn_session (gn_state 11 49 [10; 50] false)));
    [apply reqs_gn_fair | computed | reflexivity].
Defined.

(** The empty word after the owl. *)
Lemma empty_word_behaviour_witness :
  game_service.play_word_chain db_owl (py "s-wc") []
    = (Raise IndexError, db_owl)
  ∧ games.play_word_chain db_owl (py "s-wc") []
    = (internal_server_error, db_owl).
Proof.
  destruct (empty_word_behaviour db_owl (py "s-wc") 0
              (wc_session true (wc_state (Some owl) [owl] 1 "companion"))
              [owl] (Some owl) 1 1
              eq_refl eq_refl eq_refl eq_refl eq_refl eq_refl)
    as (_ & Hraise & _).
  apply (Hraise ltac:(by intros [[=]|[]%not_elem_of_nil]%elem_of_cons)
           40560%N eq_refl).
Defined.

Lemma play_answers_400_iff_invalid_session_witness :
  status_of (games.play_trivia db_owl (py "s-wc") pacific).1 = 400
  ∧ no_session_of_game (py "word_chain") db_owl (py "s-none").
Proof.
  destruct (play_answers_400_iff_invalid_session db_owl (py "s-wc"))
    as (_ & Htrivia & _).
  destruct (play_answers_400_iff_invalid_session db_owl (py "s-none"))
    as (Hword & _ & _).
  split.
  - apply Htrivia. right.
    exists 0%nat, (wc_session true (wc_state (Some owl) [owl] 1 "companion")).
    split; [reflexivity | literals].
  - apply (Hword owl). computed.
Defined.


Lemma returned_state_is_stored_witness :
  ∃ st s',
    JObj (wc_state (Some owl) [owl] 1 "companion") = JObj st
    ∧ game_service.get_session
        (game_service.play_word_chain db_wc (py "s-wc") owl).2 (py "s-wc")
      = Some s'
    ∧ GameSession.state s'.2 = st.
Proof.
  destruct (returned_state_is_stored db_wc (py "s-wc")
              (<[py "valid" := JBool true]>
               (<[py "word" := JStr owl]>
               (<[py "state" :=
                    JObj (wc_state (Some owl) [owl] 1 "companion")]> ∅)))
              (JObj (wc_state (Some owl) [owl] 1 "companion")))
    as (Hword & _ & _); [computed|].
  apply (Hword owl). computed.
Defined.

Lemma end_route_404_iff_unknown_witness :
  games.end_session (py "r-1") db_wc (py "s-none")
    = (HTTPException 404 (JStr (py "Session not found")), db_wc)
  ∧ status_of (games.end_session (py "r-1") db_wc (py "s-none")).1 = 404.
Proof.
  destruct (end_route_404_iff_unknown (py "r-1") db_wc (py "s-none"))
    as [Hiff Hnone].
  split; [by apply Hnone | by apply Hiff].
Defined.

(** The worked word_chain session, ended twice. *)
Lemma end_session_twice_witness :
  ∃ record,
    GameRecord.to_dict record_wc = GameRecord.to_dict record
    ∧ game_records db_wc_ended = game_records db_wc ++ [record]
    ∧ game_service.end_session (py "r-2") db_wc_ended (py "s-wc")
      = (Ok (Some (GameRecord.to_dict (with_id (py "r-2") record))),
         mkDB (game_sessions db_wc_ended)
              (game_records db_wc ++ [record; with_id (py "r-2") record])).
Proof.
  apply (end_session_twice (py "r-1") (py "r-2") db_wc (py "s-wc")
           (GameRecord.to_dict record_wc) db_wc_ended); [computed|].
  intros Hin. vm_compute in Hin.
  apply elem_of_cons in Hin as [[=]|Hin]. by apply not_elem_of_nil in Hin.
Defined.


Lemma records_are_backed_witness :
  record_backed (serve empty_db reqs_wc_ended) record_wc.
Proof.
  apply (records_are_backed reqs_wc_ended record_wc).
  vm_compute. left.
Defined.

Lemma started_session_is_fetched_witness :
  ∃ s,
    JObj (GameSession.to_dict
            (wc_session true (wc_state (Some owl) [owl] 1 "companion")))
    = JObj (GameSession.to_dict s)
    ∧ GameSession.game_id s = py "word_chain"
    ∧ GameSession.companion_id s = comp
    ∧ GameSession.is_active s = true
    ∧ games.get_session (serve empty_db reqs_owl) (GameSession.id s)
      = (Response 200
           (JObj (GameSession.to_dict
                    (wc_session true
                       (wc_state (Some owl) [owl] 1 "companion")))),
         serve empty_db reqs_owl).
Proof.
  apply (started_session_is_fetched reqs_owl (draw "s-2") (py "word_chain")
           comp). computed.
Defined.

(** The worked word_chain session is ended and started anew. *)
Lemma start_after_end_witness :
  game_service.get_active_session db_wc_ended comp (py "word_chain") = None
  ∧ games.create_session (draw "s-2") db_wc_ended (py "word_chain") comp
    = (Response 200
         (JObj (GameSession.to_dict
                  (new_session (draw "s-2") (py "word_chain") comp))),
       mkDB (game_sessions db_wc_ended
             ++ [new_session (draw "s-2") (py "word_chain") comp])
            (game_records db_wc_ended)).
Proof.
  apply (start_after_end (py "r-1") (draw "s-2") db_wc (py "word_chain") comp
           0 (wc_session true wc_state0) (GameRecord.to_dict record_wc)
           db_wc_ended).
  - exact (serve_keeps_one_active
             [PostSession (draw "s-wc") (py "word_chain") comp]
             empty_db one_active_empty).
  - reflexivity.
  - reflexivity.
  - computed.
  - intros Hin. vm_compute in Hin.
    apply elem_of_cons in Hin as [[=]|Hin]. by apply not_elem_of_nil in Hin.
Defined.

Lemma catalogue_covers_initial_states_witness :
  GameService.get_game_info (py "chess") = None
  ∧ games_routes.get_game_info empty_db (py "chess")
    = (HTTPException 404 (JStr (py "Game not found")), empty_db)
  ∧ game_service._get_initial_state (draw "s") (py "chess") = ∅.
Proof.
  destruct (catalogue_covers_initial_states (draw "s") empty_db (py "chess"))
    as (Hknown & _ & Hroute & Hinit & _).
  assert (Hnone : GameService.get_game_info (py "chess") = None).
  { apply Hknown. intros Hin. vm_compute in Hin.
    repeat (apply elem_of_cons in Hin as [[=]|Hin]).
    by apply not_elem_of_nil in Hin. }
  split_and!; [exact Hnone | by apply Hroute | by apply Hinit].
Defined.



Lemma games_by_type_entries_witness :
  1 ≤ Stats.played (Stats.mkByType 2 1)
  ∧ Stats.played (Stats.mkByType 2 1)
    ≤ Stats.total_games (game_service.get_statistics db_three comp).1
  ∧ 0 ≤ Stats.type_wins (Stats.mkByType 2 1)
  ∧ Stats.type_wins (Stats.mkByType 2 1) ≤ Stats.played (Stats.mkByType 2 1)
  ∧ Stats.type_wins (Stats.mkByType 2 1)
    ≤ Stats.wins (game_service.get_statistics db_three comp).1.
Proof.
  destruct (games_by_type_entries db_three comp (py "trivia")) as [_ Hentry].
  apply Hentry. computed.
Defined.

(** ** The worked sessions are states the server reaches *)

Example reach_db_wc :
  serve empty_db [PostSession (draw "s-wc") (py "word_chain") comp] = db_wc.
Proof. vm_compute. reflexivity. Qed.

Example reach_db_wc_ended :
  serve db_wc [PostEnd (py "r-1") (py "s-wc")] = db_wc_ended.
Proof. vm_compute. reflexivity. Qed.

Example reach_db_owl :
  serve db_wc [PostWordChain (py "s-wc") owl] = db_owl.
Proof. vm_compute. reflexivity. Qed.

Example reach_db_gn :
  serve empty_db [PostSession (draw "s-gn") (py "guess_number") comp;
                  PostGuessNumber (py "s-gn") 10;
                  PostGuessNumber (py "s-gn") 50] = db_gn.
Proof. vm_compute. reflexivity. Qed.

Example reach_db_gn_won :
  serve db_gn [PostGuessNumber (py "s-gn") 42] = db_gn_won.
Proof. vm_compute. reflexivity. Qed.

Example reach_db_tr :
  serve empty_db [PostSession (draw "s-tr") (py "trivia") comp;
                  PostTrivia (py "s-tr") pacific;
                  PostTrivia (py "s-tr") (py "?")] = db_tr.
Proof. vm_compute. reflexivity. Qed.

Example reach_db_tr_done :
  serve db_tr [PostTrivia (py "s-tr") yangtze;
               PostTrivia (py "s-tr") (py "?");
               PostTrivia (py "s-tr") (py "H2O")] = db_tr_done.
Proof. vm_compute. reflexivity. Qed.
